(** * Monthly activity report backend: query, aggregation and serialization

    A shallow embedding of [src/main.py] (the FastAPI handlers of the monthly
    report service) and of the parts of Python's [datetime] and [csv] modules
    and of the document store that the handlers rely on.

    Layout: calendar dates; Python values and the object heap; the document
    serializer; the store and its filters; the handlers; then the lemmas. *)

From Stdlib Require Import ZArith Lia String Ascii List.
From stdpp Require Import base option list gmap strings.

Set Warnings "-register-all".
Local Open Scope string_scope.

(** ** Calendar dates: Python's [datetime.date] and [datetime.datetime] *)

Section Calendar.
Local Open Scope Z_scope.

Definition MINYEAR : Z := 1.
Definition MAXYEAR : Z := 9999.

(** [datetime._is_leap] *)
Definition is_leap (y : Z) : bool :=
  (y mod 4 =? 0) && (negb (y mod 100 =? 0) || (y mod 400 =? 0)).

(** [datetime._DAYS_IN_MONTH], indexed from 1 *)
Definition DAYS_IN_MONTH (m : Z) : Z :=
  match m with
  | 1 => 31 | 2 => 28 | 3 => 31 | 4 => 30 | 5 => 31 | 6 => 30
  | 7 => 31 | 8 => 31 | 9 => 30 | 10 => 31 | 11 => 30 | 12 => 31
  | _ => -1
  end.

(** [datetime._DAYS_BEFORE_MONTH], indexed from 1 *)
Definition DAYS_BEFORE_MONTH (m : Z) : Z :=
  match m with
  | 1 => 0 | 2 => 31 | 3 => 59 | 4 => 90 | 5 => 120 | 6 => 151
  | 7 => 181 | 8 => 212 | 9 => 243 | 10 => 273 | 11 => 304 | 12 => 334
  | _ => -1
  end.

(** [datetime._days_in_month] *)
Definition days_in_month (y m : Z) : Z :=
  if (m =? 2) && is_leap y then 29 else DAYS_IN_MONTH m.

(** [datetime._days_before_year]: days before January 1st of year [y] *)
Definition days_before_year (y : Z) : Z :=
  let y := y - 1 in y * 365 + y / 4 - y / 100 + y / 400.

(** [datetime._days_before_month] *)
Definition days_before_month (y m : Z) : Z :=
  DAYS_BEFORE_MONTH m + (if (2 <? m) && is_leap y then 1 else 0).

Record date := Date { date_year : Z; date_month : Z; date_day : Z }.

Record datetime := DateTime {
  dt_date : date;            (* [.date()] *)
  dt_hour : Z; dt_minute : Z; dt_second : Z; dt_microsecond : Z
}.

(** [datetime._check_date_fields]: the constructor raises [ValueError]
    ([None] here) when a field is out of range. *)
Definition check_date_fields (y m d : Z) : bool :=
  (MINYEAR <=? y) && (y <=? MAXYEAR) &&
  (1 <=? m) && (m <=? 12) &&
  (1 <=? d) && (d <=? days_in_month y m).

(** [date(y, m, d)] *)
Definition mk_date (y m d : Z) : option date :=
  if check_date_fields y m d then Some (Date y m d) else None.

(** [datetime(y, m, d)]: midnight of that day *)
Definition mk_datetime (y m d : Z) : option datetime :=
  dd ← mk_date y m d; Some (DateTime dd 0 0 0 0).

(** [date.toordinal], i.e. [datetime._ymd2ord] *)
Definition toordinal (d : date) : Z :=
  days_before_year (date_year d)
  + days_before_month (date_year d) (date_month d) + date_day d.

(** [date.__lt__] and [date.__le__]: comparison of the (year, month, day)
    triples *)
Definition date_ltb (a b : date) : bool :=
  (date_year a <? date_year b)
  || ((date_year a =? date_year b)
      && ((date_month a <? date_month b)
          || ((date_month a =? date_month b) && (date_day a <? date_day b)))).

Definition date_eqb (a b : date) : bool :=
  (date_year a =? date_year b) && (date_month a =? date_month b)
  && (date_day a =? date_day b).

Definition date_leb (a b : date) : bool := date_ltb a b || date_eqb a b.

(** [b - a] on dates: the [days] of the resulting [timedelta] *)
Definition date_sub (b a : date) : Z := toordinal b - toordinal a.

(** [x or default] on an [Optional[int]]: [None] and [0] are falsy. *)
Definition int_or (x : option Z) (default : Z) : Z :=
  match x with
  | Some v => if v =? 0 then default else v
  | None => default
  end.

(** The month window, written out three times in [main.py]
    ([list_activities], [dashboard], [monthly_recap]):
<<
    start = datetime(y, m, 1)
    end = datetime(y + 1, 1, 1) if m == 12 else datetime(y, m + 1, 1)
    ... start.date(), end.date()
>>
    [None] stands for the [ValueError] of a failing constructor. *)
Definition month_window (y m : Z) : option (date * date) :=
  start ← mk_datetime y m 1;
  end_ ← (if m =? 12 then mk_datetime (y + 1) 1 1 else mk_datetime y (m + 1) 1);
  Some (dt_date start, dt_date end_).

(** [y = year or utcnow().year; m = month or utcnow().month] *)
Definition resolve_year (now : datetime) (year : option Z) : Z :=
  int_or year (date_year (dt_date now)).
Definition resolve_month (now : datetime) (month : option Z) : Z :=
  int_or month (date_month (dt_date now)).

End Calendar.

(** Decimal rendering, as [%d] and the zero-padded [%0Nd] produce it. *)

Definition digit_char (n : Z) : ascii := ascii_of_nat (48 + Z.to_nat (n mod 10)).

Fixpoint dec_digits (fuel : nat) (n : Z) (acc : string) : string :=
  let acc' := String (digit_char n) acc in
  match fuel with
  | O => acc'
  | S fuel' => if (n / 10 =? 0)%Z then acc' else dec_digits fuel' (n / 10)%Z acc'
  end.

Definition dec_nonneg (n : Z) : string :=
  dec_digits (Z.to_nat (Z.log2 n)) n EmptyString.

(** [str(n)] for an [int] *)
Definition str_int (n : Z) : string :=
  if (n <? 0)%Z then String "-"%char (dec_nonneg (- n)) else dec_nonneg n.

Fixpoint zeros (n : nat) : string :=
  match n with O => EmptyString | S n' => String "0"%char (zeros n') end.

(** ["%0{width}d" % n] for a non-negative [n] *)
Definition zero_pad (width : nat) (n : Z) : string :=
  let s := dec_nonneg n in zeros (width - String.length s) +:+ s.

(** [date.isoformat()]: ["%04d-%02d-%02d"] *)
Definition date_isoformat (d : date) : string :=
  zero_pad 4 (date_year d) +:+ "-" +:+ zero_pad 2 (date_month d)
  +:+ "-" +:+ zero_pad 2 (date_day d).

(** [datetime.isoformat(sep)] of a naive datetime: the date, the separator,
    ["%02d:%02d:%02d"], and [".%06d"] when the microsecond is not zero. *)
Definition datetime_isoformat (sep : string) (t : datetime) : string :=
  date_isoformat (dt_date t) +:+ sep
  +:+ zero_pad 2 (dt_hour t) +:+ ":" +:+ zero_pad 2 (dt_minute t)
  +:+ ":" +:+ zero_pad 2 (dt_second t)
  +:+ (if (dt_microsecond t =? 0)%Z then EmptyString
       else "." +:+ zero_pad 6 (dt_microsecond t)).

Global Instance date_eq_dec : EqDecision date.
Proof. solve_decision. Defined.
Global Instance datetime_eq_dec : EqDecision datetime.
Proof. solve_decision. Defined.

(** ** Python values and the object heap *)

Section Backend.
Set Default Proof Using "Type".

(** Numbers (the [int] and [float] fields [duration], [income], [expense],
    [size]) are kept abstract: nothing below depends on floating-point
    arithmetic, only on a zero and an addition for the store's [$sum]. *)
Variable number : Type.
Context {number_eq_dec : EqDecision number}.
Variable num_zero : number.
Variable num_add : number -> number -> number.

(** Dictionaries are objects: a value refers to one by its address, so that
    two references to the same dictionary see each other's updates. Lists are
    never updated in place by [main.py] (it only builds fresh ones), so a list
    is carried by value. *)
Local Abbreviation loc := nat (only parsing).

Inductive value :=
  | VNone
  | VNum (x : number)
  | VStr (s : string)
  | VObjectId (oid : string)      (* a [bson.ObjectId], by its 24 hex digits *)
  | VDate (d : date)
  | VDateTime (t : datetime)
  | VList (vs : list value)
  | VRef (l : loc).               (* a [dict] object *)

Lemma value_eq_dec : forall a b : value, {a = b} + {a <> b}.
Proof using number number_eq_dec.
  fix IH 1. intros a b.
  decide equality; try (apply list_eq_dec; exact IH); solve_decision.
Defined.
Global Instance value_eq_decision : EqDecision value := value_eq_dec.

Local Abbreviation dict := (gmap string value) (only parsing).
Local Abbreviation heap := (gmap nat (gmap string value)) (only parsing).

(** [str(v)] and [format(v, "")]. The text of a number, a list or a dictionary
    is not modelled: it is whatever [repr_other] gives (for a dictionary it
    depends on the heap). *)
Variable repr_other : heap -> value -> string.

Definition py_str (h : heap) (v : value) : string :=
  match v with
  | VNone => "None"
  | VStr s => s
  | VObjectId oid => oid
  | VDate d => date_isoformat d
  | VDateTime t => datetime_isoformat " " t
  | _ => repr_other h v
  end.

(** [isinstance(v, (datetime, date))] *)
Definition is_temporal (v : value) : bool :=
  match v with VDate _ | VDateTime _ => true | _ => false end.

(** [v.isoformat()] *)
Definition isoformat (v : value) : string :=
  match v with
  | VDate d => date_isoformat d
  | VDateTime t => datetime_isoformat "T" t
  | _ => EmptyString
  end.

(** [x is None] *)
Definition is_None (v : value) : bool :=
  match v with VNone => true | _ => false end.

(** [doc[k] = v] on the object at address [doc] *)
Definition set_item (doc : loc) (k : string) (v : value) (h : heap) : heap :=
  match h !! doc with
  | Some d => <[doc := <[k := v]> d]> h
  | None => h
  end.

(** ** The document serializer, [serialize_doc] (main.py 28-46)

    [serialize_doc] works on the dictionary it is given: every step below is
    an update of the heap at [doc], and the value returned is [doc] itself
    (both [return doc]), so the model returns the heap after the call.
    [None] is a [RecursionError]: [fuel] is the interpreter's recursion
    limit (an address without an object, which Python cannot have, gives
    [None] as well). The fields are visited in the order of the map's keys,
    where Python follows the order of insertion; nothing stated below
    depends on that order. *)

Section SerializeLoops.

(** the recursive call [serialize_doc(item)] *)
Variable self : heap -> loc -> option heap.

(** [for item in v: new_list.append(serialize_doc(item) if
    isinstance(item, dict) else item)] *)
Fixpoint walk_list (items new_list : list value) (h : heap)
  : option (heap * list value) :=
  match items with
  | [] => Some (h, new_list)
  | VRef r :: rest =>
      h' ← self h r; walk_list rest (new_list ++ [VRef r]) h'
  | item :: rest => walk_list rest (new_list ++ [item]) h
  end.

(** One turn of [for k, v in list(doc.items())]: [v] is the value read when
    the loop started. *)
Definition convert_item (doc : loc) (k : string) (v : value) (h : heap)
  : option heap :=
  let h1 := if is_temporal v then set_item doc k (VStr (isoformat v)) h else h in
  match v with
  | VList items =>
      '(h2, new_list) ← walk_list items [] h1;
      Some (set_item doc k (VList new_list) h2)
  | _ => Some h1
  end.

Fixpoint convert_items (doc : loc) (items : list (string * value)) (h : heap)
  : option heap :=
  match items with
  | [] => Some h
  | (k, v) :: rest => h' ← convert_item doc k v h; convert_items doc rest h'
  end.

End SerializeLoops.

(** [doc["id"] = str(doc.get("_id")); doc.pop("_id", None)], done when
    [doc.get("_id") is not None] *)
Definition rename_id (h : heap) (d : dict) : dict :=
  match d !! "_id" with
  | Some v =>
      if is_None v then d
      else delete "_id" (<["id" := VStr (py_str h v)]> d)
  | None => d
  end.

Fixpoint serialize_doc (fuel : nat) (h : heap) (doc : loc) : option heap :=
  match fuel with
  | O => None
  | S fuel' =>
      d ← h !! doc;
      if decide (d = ∅) then Some h            (* [if not doc: return doc] *)
      else
        let d1 := rename_id h d in
        let h1 := <[doc := d1]> h in
        convert_items (serialize_doc fuel') doc (map_to_list d1) h1
  end.

(** [[serialize_doc(d) for d in docs]] *)
Fixpoint serialize_all (fuel : nat) (h : heap) (docs : list loc) : option heap :=
  match docs with
  | [] => Some h
  | d :: rest => h' ← serialize_doc fuel h d; serialize_all fuel h' rest
  end.

(** ** The document store

    The store is an outside collaborator. Its operations are modelled as far
    as the handlers use them: filters made of a date range, an equality and a
    pattern match; counting; grouping with a count or a sum; update and
    deletion of one document. A document is a dictionary; the [activity]
    collection lists its documents in their stored order. *)

Record store := Store { objects : heap; activity : list loc }.

(** A filter is a dictionary of conditions that must all hold: a condition on
    a field, or an ["$or"] of single-field conditions. The fields are read
    as the schema has them, a text, a number, a date or null: a condition on
    a field that holds a list is not modelled beyond plain equality. *)
Inductive cond :=
  | CRange (lo hi : date)                 (* [{"$gte": lo, "$lt": hi}] *)
  | CEq (v : value)                       (* [field: v] *)
  | CRegex (pattern options : string).    (* [{"$regex": p, "$options": o}] *)

Inductive clause :=
  | Field (field : string) (c : cond)
  | Or (alternatives : list (string * cond)).

(** *** Pattern matching of the store (["$regex"])

    The store searches the field for a match of the pattern, read as a
    regular expression. The fragment modelled here: an ordinary character
    stands for itself and [.] for any character but a line feed. A pattern
    that uses any other metacharacter is left to [regex_other] ([None] when
    the store rejects the pattern). Text is a sequence of 8-bit characters;
    case folding is that of the ASCII letters. *)

Variable regex_other : string -> bool -> string -> option bool.

Definition to_lower (c : ascii) : ascii :=
  let n := nat_of_ascii c in
  if (65 <=? n)%nat && (n <=? 90)%nat then ascii_of_nat (n + 32) else c.

Fixpoint lower (s : string) : string :=
  match s with
  | EmptyString => EmptyString
  | String c s' => String (to_lower c) (lower s')
  end.

Definition char_eqb (icase : bool) (a b : ascii) : bool :=
  if icase then Ascii.eqb (to_lower a) (to_lower b) else Ascii.eqb a b.

Inductive atom := Lit (c : ascii) | AnyChar.

Definition LF : ascii := "010"%char.
Definition CR : ascii := "013"%char.
Definition DQUOTE : ascii := "034"%char.

Fixpoint mem_char (c : ascii) (s : string) : bool :=
  match s with
  | EmptyString => false
  | String x s' => Ascii.eqb c x || mem_char c s'
  end.

(** the characters with a special meaning in a pattern *)
Definition is_meta (c : ascii) : bool := mem_char c "\^$.|?*+()[]{}".

Fixpoint parse_pattern (p : string) : option (list atom) :=
  match p with
  | EmptyString => Some []
  | String c rest =>
      if Ascii.eqb c "."%char then cons AnyChar <$> parse_pattern rest
      else if is_meta c then None
      else cons (Lit c) <$> parse_pattern rest
  end.

Definition atom_matches (icase : bool) (a : atom) (c : ascii) : bool :=
  match a with
  | Lit x => char_eqb icase x c
  | AnyChar => negb (Ascii.eqb c LF)
  end.

Fixpoint match_here (icase : bool) (atoms : list atom) (s : string) : bool :=
  match atoms with
  | [] => true
  | a :: rest =>
      match s with
      | EmptyString => false
      | String c s' => atom_matches icase a c && match_here icase rest s'
      end
  end.

Fixpoint search_from (icase : bool) (atoms : list atom) (s : string) : bool :=
  match_here icase atoms s
  || match s with
     | EmptyString => false
     | String _ s' => search_from icase atoms s'
     end.

Definition regex_search (pattern options s : string) : option bool :=
  let icase := mem_char "i"%char options in
  match parse_pattern pattern with
  | Some atoms => Some (search_from icase atoms s)
  | None => regex_other pattern icase s
  end.

(** *** Filters *)

(** The date of a stored value, for a range condition: a date-time is
    compared through its day, which for bounds at midnight is the same
    comparison. *)
Definition date_of_value (v : value) : option date :=
  match v with
  | VDate d => Some d
  | VDateTime t => Some (dt_date t)
  | _ => None
  end.

Definition cond_holds (c : cond) (field : option value) : option bool :=
  match c with
  | CRange lo hi =>
      match field ≫= date_of_value with
      | Some d => Some (date_leb lo d && date_ltb d hi)
      | None => Some false
      end
  | CEq v => Some (bool_decide (field = Some v))
  | CRegex pattern options =>
      match field with
      | Some (VStr s) => regex_search pattern options s
      | _ => Some false
      end
  end.

(** ["$or"]: the alternatives are tried in order. *)
Fixpoint any_holds (d : dict) (alts : list (string * cond)) : option bool :=
  match alts with
  | [] => Some false
  | (k, c) :: rest =>
      b ← cond_holds c (d !! k);
      if b : bool then Some true else any_holds d rest
  end.

Definition clause_holds (d : dict) (c : clause) : option bool :=
  match c with
  | Field k c => cond_holds c (d !! k)
  | Or alts => any_holds d alts
  end.

Fixpoint matches (d : dict) (query : list clause) : option bool :=
  match query with
  | [] => Some true
  | c :: rest =>
      b ← clause_holds d c;
      if b : bool then matches d rest else Some false
  end.

(** [find(query)]: the documents of the collection that match, in stored
    order; [None] is the store's [OperationFailure]. An address without an
    object matches nothing. *)
Fixpoint find_in (h : heap) (docs : list loc) (query : list clause)
  : option (list loc) :=
  match docs with
  | [] => Some []
  | l :: rest =>
      b ← match h !! l with Some d => matches d query | None => Some false end;
      found ← find_in h rest query;
      Some (if b : bool then l :: found else found)
  end.

Definition find (st : store) (query : list clause) : option (list loc) :=
  find_in (objects st) (activity st) query.

(** Modelled from the spec: [get_documents] of the [database] module, which
    is not among the sources; the spec's [findMany(collection, filter) ->
    sequence<record>]. *)
Definition get_documents (st : store) (query : list clause) : option (list loc) :=
  find st query.

(** [find_one(query)] *)
Definition find_one (st : store) (query : list clause) : option (option loc) :=
  head <$> find st query.

(** [count_documents(query)] *)
Definition count_documents (st : store) (query : list clause) : option nat :=
  length <$> find st query.

(** The value of a field path such as ["$category"]: null when absent. *)
Definition field_or_null (d : dict) (k : string) : value :=
  default VNone (d !! k).

(** A Python dictionary whose order of keys matters (the insertion order):
    [d[k] = v] replaces the value of a key already there, and appends
    otherwise. *)
Fixpoint dict_set {V : Type} (k : value) (v : V) (d : list (value * V))
  : list (value * V) :=
  match d with
  | [] => [(k, v)]
  | (k', v') :: rest =>
      if decide (k' = k) then (k, v) :: rest else (k', v') :: dict_set k v rest
  end.

Fixpoint dict_get {V : Type} (k : value) (d : list (value * V)) : option V :=
  match d with
  | [] => None
  | (k', v') :: rest => if decide (k' = k) then Some v' else dict_get k rest
  end.

(** [{"$group": {"_id": "$category", "count": {"$sum": 1}}}]: one group per
    distinct value of the field, with the number of its documents. The store
    promises no order of the groups; here they come in the order in which
    their first document is met. *)
Definition incr (key : value) (groups : list (value * nat)) : list (value * nat) :=
  dict_set key (S (default O (dict_get key groups))) groups.

Definition group_count (h : heap) (docs : list loc) (k : string)
  : list (value * nat) :=
  foldl (fun groups l => incr (field_or_null (default ∅ (h !! l)) k) groups)
        [] docs.

(** [{"$sum": {"$ifNull": ["$income", 0]}}]: a field that is absent, null or
    not a number adds nothing. *)
Definition num_field (d : dict) (k : string) : number :=
  match d !! k with
  | Some (VNum x) => x
  | _ => num_zero
  end.

Definition group_sum (h : heap) (docs : list loc) (k : string) : number :=
  foldl (fun acc l => num_add acc (num_field (default ∅ (h !! l)) k))
        num_zero docs.

(** [update_one(query, {"$set": fields})]: the first matching document gets
    the fields; [modified_count] is 1 when that changed it. *)
Definition set_fields (fields : list (string * value)) (d : dict) : dict :=
  foldl (fun d kv => <[kv.1 := kv.2]> d) d fields.

Definition update_one (st : store) (query : list clause)
    (fields : list (string * value)) : option (store * nat) :=
  found ← find_one st query;
  match found with
  | Some l =>
      let d := default ∅ (objects st !! l) in
      let d' := set_fields fields d in
      Some (Store (<[l := d']> (objects st)) (activity st),
            if decide (d' = d) then O else 1%nat)
  | None => Some (st, O)
  end.

(** [delete_one(query)] *)
Fixpoint remove_first (l : loc) (docs : list loc) : list loc :=
  match docs with
  | [] => []
  | x :: rest => if decide (x = l) then rest else x :: remove_first l rest
  end.

Definition delete_one (st : store) (query : list clause) : option (store * nat) :=
  found ← find_one st query;
  match found with
  | Some l => Some (Store (objects st) (remove_first l (activity st)), 1%nat)
  | None => Some (st, O)
  end.

(** ** The request handlers of [main.py] *)

(** The exceptions that arise: [ValueError] from a date constructor that
    refuses its arguments (for an integer beyond the machine range the
    interpreter raises [OverflowError] instead; both are [Exception]s and
    are caught, or escape, alike), [RecursionError] from the serializer,
    [OperationFailure] from the store. *)
Inductive exception := ValueError | RecursionError | OperationFailure.

(** What a handler comes to: a payload, an [HTTPException] it raised, or an
    exception nobody caught. *)
Inductive outcome (A : Type) :=
  | Return (a : A)
  | HTTPException (status_code : Z) (detail : string)
  | Uncaught (e : exception).
Global Arguments Return {A} a.
Global Arguments HTTPException {A} status_code detail.
Global Arguments Uncaught {A} e.

(** The status the framework answers with: 200, the exception's own status,
    or 500 for an exception that was not caught. *)
Definition status_of {A} (o : outcome A) : Z :=
  match o with
  | Return _ => 200
  | HTTPException s _ => s
  | Uncaught _ => 500
  end.

Definition is_client_error (s : Z) : bool := (400 <=? s)%Z && (s <? 500)%Z.
Definition is_server_error (s : Z) : bool := (500 <=? s)%Z && (s <? 600)%Z.

Global Instance outcome_bind : MBind outcome := fun A B f o =>
  match o with
  | Return a => f a
  | HTTPException s d => HTTPException s d
  | Uncaught e => Uncaught e
  end.

(** A store call inside a handler: a failure of the store is not caught. *)
Definition store_call {A} (r : option A) : outcome A :=
  match r with Some a => Return a | None => Uncaught OperationFailure end.

(** *** [to_object_id] (main.py 50-55)

    [ObjectId] is the driver's constructor, with the import in front of it:
    the identifier's canonical text, or [None] when the [try] block raises
    (the identifier is not well formed, or the import failed). *)
Variable ObjectId : string -> option string.

Definition to_object_id (oid : string) : outcome string :=
  match ObjectId oid with
  | Some o => Return o
  | None => HTTPException 400 "Invalid ID format"
  end.

(** Truth value of a value, for [x or default] and [if x]. *)
Definition truthy (h : heap) (v : value) : bool :=
  match v with
  | VNone => false
  | VNum x => negb (bool_decide (x = num_zero))
  | VStr s => negb (String.eqb s EmptyString)
  | VList vs => match vs with [] => false | _ => true end
  | VRef l => negb (bool_decide (h !! l = Some ∅))
  | VObjectId _ | VDate _ | VDateTime _ => true
  end.

Definition truthy_int (x : option Z) : bool :=
  match x with Some v => negb (v =? 0)%Z | None => false end.

Definition truthy_str (x : option string) : bool :=
  match x with Some s => negb (String.eqb s EmptyString) | None => false end.

(** *** [list_activities] (main.py 111-133) *)

(** The [try] block of lines 115-123: a failing date constructor leaves the
    query without a date condition. *)
Definition date_clause (now : datetime) (month year : option Z) : list clause :=
  if truthy_int month || truthy_int year then
    match month_window (resolve_year now year) (resolve_month now month) with
    | Some (start, end_) => [Field "date" (CRange start end_)]
    | None => []
    end
  else [].

Definition search_clause (search : string) : clause :=
  Or [ ("name", CRegex search "i");
       ("result", CRegex search "i");
       ("notes", CRegex search "i") ].

Definition build_query (now : datetime) (month year : option Z)
    (category search : option string) : list clause :=
  (date_clause now month year
   ++ (if truthy_str category
       then [Field "category" (CEq (VStr (default EmptyString category)))] else [])
   ++ (if truthy_str search
       then [search_clause (default EmptyString search)] else []))%list.

(** The payload is the list of the documents found, each serialized in
    place: the heap after the calls, and the addresses. *)
Definition list_activities (limit : nat) (now : datetime) (st : store)
    (month year : option Z) (category search : option string)
  : outcome (heap * list loc) :=
  docs ← store_call (get_documents st (build_query now month year category search));
  match serialize_all limit (objects st) docs with
  | Some h' => Return (h', docs)
  | None => Uncaught RecursionError
  end.

(** *** [get_activity] (main.py 135-140) *)
Definition get_activity (limit : nat) (st : store) (activity_id : string)
  : outcome (heap * loc) :=
  oid ← to_object_id activity_id;
  doc ← store_call (find_one st [Field "_id" (CEq (VObjectId oid))]);
  match doc with
  | Some l =>
      if bool_decide (objects st !! l = Some ∅) then HTTPException 404 "Not found"
      else match serialize_doc limit (objects st) l with
           | Some h' => Return (h', l)
           | None => Uncaught RecursionError
           end
  | None => HTTPException 404 "Not found"
  end.

(** *** [update_activity] (main.py 142-149) *)
Record ActivityUpdate := {
  u_date : option date;
  u_name : option string;
  u_category : option string;
  u_duration : option number;
  u_result : option string;
  u_notes : option string;
  u_income : option number;
  u_expense : option number;
  u_finance_category : option string
}.

Definition dump_field {A} (k : string) (f : A -> value) (x : option A)
  : list (string * value) :=
  match x with Some a => [(k, f a)] | None => [] end.

(** [payload.model_dump(exclude_none=True)] *)
Definition model_dump_exclude_none (p : ActivityUpdate) : list (string * value) :=
  (dump_field "date" VDate (u_date p)
  ++ dump_field "name" VStr (u_name p)
  ++ dump_field "category" VStr (u_category p)
  ++ dump_field "duration" VNum (u_duration p)
  ++ dump_field "result" VStr (u_result p)
  ++ dump_field "notes" VStr (u_notes p)
  ++ dump_field "income" VNum (u_income p)
  ++ dump_field "expense" VNum (u_expense p)
  ++ dump_field "finance_category" VStr (u_finance_category p))%list.

(** The handler gives the store after the request and [{"updated": b}]. *)
Definition update_activity (now : datetime) (st : store) (activity_id : string)
    (payload : ActivityUpdate) : store * outcome bool :=
  let update_data := model_dump_exclude_none payload in
  match update_data with
  | [] => (st, Return false)
  | _ =>
      let update_data := (update_data ++ [("updated_at", VDateTime now)])%list in
      match to_object_id activity_id with
      | Return oid =>
          match update_one st [Field "_id" (CEq (VObjectId oid))] update_data with
          | Some (st', modified_count) => (st', Return (modified_count =? 1)%nat)
          | None => (st, Uncaught OperationFailure)
          end
      | HTTPException s d => (st, HTTPException s d)
      | Uncaught e => (st, Uncaught e)
      end
  end.

(** *** [delete_activity] (main.py 151-154) *)
Definition delete_activity (st : store) (activity_id : string)
  : store * outcome bool :=
  match to_object_id activity_id with
  | Return oid =>
      match delete_one st [Field "_id" (CEq (VObjectId oid))] with
      | Some (st', deleted_count) => (st', Return (deleted_count =? 1)%nat)
      | None => (st, Uncaught OperationFailure)
      end
  | HTTPException s d => (st, HTTPException s d)
  | Uncaught e => (st, Uncaught e)
  end.

(** *** [dashboard] (main.py 176-211) *)

(** [{item["_id"] or "unknown": item["count"] for item in cat_counts}] *)
Definition label (h : heap) (key : value) : value :=
  if truthy h key then key else VStr "unknown".

Definition by_label (h : heap) (cat_counts : list (value * nat))
  : list (value * nat) :=
  foldl (fun acc item => dict_set (label h item.1) item.2 acc) [] cat_counts.

Record Dashboard := {
  total_activities : nat;
  total_income : number;
  total_expense : number;
  per_category : list (value * nat)
}.

(** The window of lines 178-181 (and 220-223): here no [try] surrounds the
    constructors. *)
Definition window_or_raise (now : datetime) (month year : option Z)
  : outcome (date * date) :=
  match month_window (resolve_year now year) (resolve_month now month) with
  | Some w => Return w
  | None => Uncaught ValueError
  end.

Definition dashboard (now : datetime) (st : store) (month year : option Z)
  : outcome Dashboard :=
  '(start, end_) ← window_or_raise now month year;
  let match_ := [Field "date" (CRange start end_)] in
  docs ← store_call (find st match_);
  let cat_counts := group_count (objects st) docs "category" in
  docs' ← store_call (find st match_);
  let total_income := group_sum (objects st) docs' "income" in
  let total_expense := group_sum (objects st) docs' "expense" in
  total_activities ← store_call (count_documents st match_);
  Return {| total_activities := total_activities;
            total_income := total_income;
            total_expense := total_expense;
            per_category := by_label (objects st) cat_counts |}.

(** *** [monthly_recap] (main.py 218-252) *)

Variable format_2f : number -> string.        (* [f"{x:.2f}"] *)

(** [sum(categories.values())] *)
Definition sum_values (d : list (value * nat)) : nat :=
  foldl (fun acc kv => acc + kv.2)%nat O d.

(** [max(categories, key=categories.get)]: the first key, in the order of
    the dictionary, whose count no other exceeds. *)
Fixpoint max_key (best : value * nat) (rest : list (value * nat)) : value :=
  match rest with
  | [] => best.1
  | kv :: rest' => max_key (if (best.2 <? kv.2)%nat then kv else best) rest'
  end.

Definition top_category (h : heap) (categories : list (value * nat)) : string :=
  match categories with
  | [] => "N/A"
  | kv :: rest => py_str h (max_key kv rest)
  end.

Record Recap := {
  recap_month : Z;
  recap_year : Z;
  recap_categories : list (value * nat);
  recap_income : number;
  recap_expense : number;
  recap_summary : string
}.

Definition monthly_recap (now : datetime) (st : store) (month year : option Z)
  : outcome Recap :=
  let y := resolve_year now year in
  let m := resolve_month now month in
  '(start, end_) ← window_or_raise now month year;
  let match_ := [Field "date" (CRange start end_)] in
  docs ← store_call (find st match_);
  let categories := by_label (objects st) (group_count (objects st) docs "category") in
  docs' ← store_call (find st match_);
  let total_income := group_sum (objects st) docs' "income" in
  let total_expense := group_sum (objects st) docs' "expense" in
  let summary :=
    "Bulan " +:+ str_int m +:+ "/" +:+ str_int y
    +:+ ": Total kegiatan " +:+ str_int (Z.of_nat (sum_values categories)) +:+ ". "
    +:+ "Kategori terbanyak: " +:+ top_category (objects st) categories +:+ ". "
    +:+ "Pemasukan " +:+ format_2f total_income
    +:+ ", Pengeluaran " +:+ format_2f total_expense +:+ "." in
  Return {| recap_month := m; recap_year := y; recap_categories := categories;
            recap_income := total_income; recap_expense := total_expense;
            recap_summary := summary |}.

(** *** [export_csv] (main.py 255-271) *)

(** [csv.writer] with its default dialect: a field is the text of its value
    ([None] gives the empty text); it is quoted, its quotes doubled, when it
    holds a comma, a quote, a carriage return or a line feed; fields are
    joined by commas and the row ends with CR LF. *)
Definition csv_text (h : heap) (v : option value) : string :=
  match v with
  | None | Some VNone => EmptyString
  | Some v => py_str h v
  end.

Definition needs_quote (s : string) : bool :=
  mem_char ","%char s || mem_char DQUOTE s || mem_char CR s || mem_char LF s.

Fixpoint double_quotes (s : string) : string :=
  match s with
  | EmptyString => EmptyString
  | String c s' =>
      if Ascii.eqb c DQUOTE then String c (String c (double_quotes s'))
      else String c (double_quotes s')
  end.

Definition csv_field (s : string) : string :=
  if needs_quote s then String DQUOTE (double_quotes s) +:+ String DQUOTE EmptyString
  else s.

Definition CRLF : string := String CR (String LF EmptyString).

Definition writerow (fields : list string) : string :=
  match fields with
  | [EmptyString] => String DQUOTE (String DQUOTE EmptyString) +:+ CRLF
  | _ => String.concat "," (map csv_field fields) +:+ CRLF
  end.

Definition CSV_HEADER : list string :=
  [ "Tanggal"; "Nama"; "Kategori"; "Durasi"; "Hasil"; "Catatan";
    "Pemasukan"; "Pengeluaran"; "Kategori Keuangan" ].

Definition CSV_COLUMNS : list string :=
  [ "date"; "name"; "category"; "duration"; "result"; "notes";
    "income"; "expense"; "finance_category" ].

(** [a.get(k)] on the serialized record [a] *)
Definition get (h : heap) (a : loc) (k : string) : option value :=
  h !! a ≫= (fun d => d !! k).

Definition csv_record (h : heap) (a : loc) : list string :=
  map (fun k => csv_text h (get h a k)) CSV_COLUMNS.

Definition to_csv (h : heap) (activities : list loc) : string :=
  String.concat EmptyString
    (writerow CSV_HEADER :: map (fun a => writerow (csv_record h a)) activities).

Record Download := { content : string; filename : string }.

Definition export_csv (limit : nat) (now : datetime) (st : store)
    (month year : option Z) : outcome Download :=
  '(h, activities) ← list_activities limit now st month year None None;
  Return {| content := to_csv h activities;
            filename := "laporan_" +:+ str_int (resolve_year now year) +:+ "_"
                        +:+ str_int (resolve_month now month) +:+ ".csv" |}.

(** *** [export_pdf] (main.py 273-289) *)

(** [f"{a.get(k)}"]: a missing field prints as [None]. *)
Definition fmt_get (h : heap) (a : loc) (k : string) : string :=
  py_str h (default VNone (get h a k)).

Definition detail_line (h : heap) (a : loc) : string :=
  "- " +:+ fmt_get h a "date" +:+ " | " +:+ fmt_get h a "name" +:+ " | "
  +:+ fmt_get h a "category" +:+ " | " +:+ fmt_get h a "duration" +:+ " jam".

Definition report_lines (recap : Recap) (h : heap) (activities : list loc)
  : list string :=
  ([ "Laporan Bulanan";
     "Bulan: " +:+ str_int (recap_month recap) +:+ "/" +:+ str_int (recap_year recap);
     recap_summary recap;
     EmptyString;
     "Rincian Kegiatan:" ]
   ++ map (detail_line h) activities)%list.

Definition export_pdf (limit : nat) (now : datetime) (st : store)
    (month year : option Z) : outcome Download :=
  recap ← monthly_recap now st month year;
  '(h, activities) ← list_activities limit now st month year None None;
  Return {| content := String.concat (String LF EmptyString) (report_lines recap h activities);
            filename := "laporan_" +:+ str_int (resolve_year now year) +:+ "_"
                        +:+ str_int (resolve_month now month) +:+ ".txt" |}.

(** ** The vocabulary of the statements

    The notions in which the properties below are stated: the spec's words
    for the month window, the wire form of a record, the progress of a heap
    under serialization, literal search, the records of a window, and the
    counting of characters in a text. *)

(** The spec's words for the window: the first day of the month, and the
    first day of the month after it. *)
Definition first_day (y m : Z) : date := Date y m 1%Z.
Definition first_day_of_next (y m : Z) : date :=
  if (m =? 12)%Z then Date (y + 1)%Z 1%Z 1%Z else Date y (m + 1)%Z 1%Z.

(** What a call makes of a value at the top level of the record: a date or
    date-time becomes its ISO text, anything else stays. *)
Definition conv (v : value) : value :=
  if is_temporal v then VStr (isoformat v) else v.

(** The record's content after a call of [serialize_doc] on it. *)
Definition serialized (h : heap) (d : dict) : dict := conv <$> rename_id h d.

(** [has_id d]: the record carries a native identifier that is not null. *)
Definition has_id (d : dict) : Prop :=
  exists v, d !! "_id" = Some v /\ is_None v = false.

(** A record in wire form: no native identifier, no date object. *)
Definition clean (d : dict) : Prop :=
  ~ has_id d /\ forall k v, d !! k = Some v -> is_temporal v = false.

(** [done n h l]: the record at [l] is in wire form, and so are, to depth
    [n], the records in its lists. *)
Fixpoint done (n : nat) (h : heap) (l : loc) : Prop :=
  match n with
  | O => False
  | S n' =>
      exists d, h !! l = Some d /\ clean d
        /\ forall k vs r, d !! k = Some (VList vs) -> VRef r ∈ vs -> done n' h r
  end.

(** [nested n h l]: the record at [l] exists, and the records nested in its
    lists, to depth [n]: a call within the recursion limit [n]. *)
Fixpoint nested (n : nat) (h : heap) (l : loc) : Prop :=
  match n with
  | O => False
  | S n' =>
      exists d, h !! l = Some d
        /\ forall k vs r, d !! k = Some (VList vs) -> VRef r ∈ vs -> nested n' h r
  end.

(** A check of [nested] that computes. *)
Fixpoint nestedb (n : nat) (h : heap) (l : loc) : bool :=
  match n with
  | O => false
  | S n' =>
      match h !! l with
      | Some d =>
          forallb (fun kv : string * value =>
                     match kv.2 with
                     | VList vs =>
                         forallb (fun x => match x with
                                           | VRef r => nestedb n' h r
                                           | _ => true
                                           end) vs
                     | _ => true
                     end) (map_to_list d)
      | None => false
      end
  end.

(** Progress under serialization. A value stays or becomes its converted
    form; a record progresses field by field, its native identifier
    untouched, possibly after the renaming of the identifier; a heap
    progresses record by record. *)
Definition vstep (v v' : value) : Prop := v' = v \/ v' = conv v.

Definition dstep (d d' : dict) : Prop :=
  (forall k, option_Forall2 vstep (d !! k) (d' !! k))
  /\ d' !! "_id" = d !! "_id".

Definition renamed (s : string) (d : dict) : dict :=
  delete "_id" (<["id" := VStr s]> d).

Definition dprog (d d' : dict) : Prop :=
  dstep d d' \/ (has_id d /\ exists s, dstep (renamed s d) d').

Definition hprog (h h' : heap) : Prop :=
  forall x, option_Forall2 dprog (h !! x) (h' !! x).

(** [item_done n l h k v]: the turn of the loop for key [k], which held [v]
    when the loop started, is over: the record at [l] holds the converted
    value, and the records of a list are done. *)
Definition item_done (n : nat) (l : loc) (h : heap) (k : string) (v : value)
  : Prop :=
  exists d, h !! l = Some d /\ ~ has_id d /\ d !! k = Some (conv v)
    /\ forall vs r, v = VList vs -> VRef r ∈ vs -> done n h r.

(** The spec's words: the search text occurs in the field as a substring,
    letter case apart. *)
Definition occurs_ci (needle hay : string) : Prop :=
  exists pre mid post, hay = pre +:+ mid +:+ post /\ lower mid = lower needle.

(** A search text without any character that is special in a pattern. *)
Fixpoint plain (s : string) : bool :=
  match s with
  | EmptyString => true
  | String c s' => negb (is_meta c) && plain s'
  end.

Fixpoint literals (s : string) : list atom :=
  match s with
  | EmptyString => []
  | String c s' => Lit c :: literals s'
  end.

(** The record's date lies in the window [lo, hi). *)
Definition in_range (h : heap) (lo hi : date) (l : loc) : bool :=
  match h !! l with
  | Some d =>
      match d !! "date" ≫= date_of_value with
      | Some x => date_leb lo x && date_ltb x hi
      | None => false
      end
  | None => false
  end.

(** The records in scope of a window. *)
Definition in_window (st : store) (lo hi : date) : list loc :=
  filter (fun l => in_range (objects st) lo hi l = true) (activity st).

(** The category a record is grouped under (null when it has none). *)
Definition category_of (h : heap) (l : loc) : value :=
  field_or_null (default ∅ (h !! l)) "category".

(** The counts of a dictionary, added up. *)
Fixpoint total (g : list (value * nat)) : nat :=
  match g with
  | [] => O
  | kv :: rest => (kv.2 + total rest)%nat
  end.

(** The occurrences of a character in a text. *)
Fixpoint count_char (c : ascii) (s : string) : nat :=
  match s with
  | EmptyString => O
  | String x s' => ((if Ascii.eqb c x then 1 else 0) + count_char c s')%nat
  end.

Fixpoint count_all (c : ascii) (l : list string) : nat :=
  match l with
  | [] => O
  | x :: rest => (count_char c x + count_all c rest)%nat
  end.

(** A row of nine fields is the fields, quoted where needed, joined by
    commas and ended by CR LF. *)
Definition csv_line (h : heap) (a : loc) : string :=
  String.concat "," (map csv_field (csv_record h a)).

(** The window that a listing applies: none when month and year are both
    absent or zero, and none when the date constructor refuses them. *)
Definition listing_window (now : datetime) (month year : option Z)
  : option (date * date) :=
  if truthy_int month || truthy_int year
  then month_window (resolve_year now year) (resolve_month now month)
  else None.

(** The text asked for: none when it is absent or empty. *)
Definition asked (x : option string) : option string :=
  if truthy_str x then x else None.

(** The record at [l] exists, its date lies in the window when there is one,
    and its category is the text asked for when there is one. *)
Definition selected (h : heap) (window : option (date * date))
    (category : option string) (l : loc) : bool :=
  match h !! l with
  | Some d =>
      match window with
      | Some (lo, hi) => in_range h lo hi l
      | None => true
      end
      && match category with
         | Some c => bool_decide (d !! "category" = Some (VStr c))
         | None => true
         end
  | None => false
  end.

(** The records a listing is about, in stored order. *)
Definition listed (st : store) (now : datetime) (month year : option Z)
    (category : option string) : list loc :=
  filter (fun l => selected (objects st) (listing_window now month year)
                     (asked category) l = true)
         (activity st).

(** The record at [l] carries the native identifier [o]. *)
Definition has_oid (h : heap) (o : string) (l : loc) : bool :=
  bool_decide (h !! l ≫= (fun d => d !! "_id") = Some (VObjectId o)).

(** The records that carry the native identifier [o], in stored order. *)
Definition with_oid (st : store) (o : string) : list loc :=
  filter (fun l => has_oid (objects st) o l = true) (activity st).

(** The record at [l] holds a number in field [k]. *)
Definition has_number (h : heap) (k : string) (l : loc) : bool :=
  match h !! l ≫= (fun d => d !! k) with
  | Some (VNum _) => true
  | _ => false
  end.

(** [within n h l x]: the record [x] is the record [l] or is nested in it
    through lists of records, fewer than [n] levels down. *)
Fixpoint within (n : nat) (h : heap) (l x : loc) : Prop :=
  match n with
  | O => False
  | S n' =>
      l = x
      \/ exists d k vs r, h !! l = Some d /\ d !! k = Some (VList vs)
           /\ VRef r ∈ vs /\ within n' h r x
  end.

(** A check of [within] that computes. *)
Fixpoint withinb (n : nat) (h : heap) (l x : loc) : bool :=
  match n with
  | O => false
  | S n' =>
      bool_decide (l = x)
      || match h !! l with
         | Some d =>
             existsb (fun kv : string * value =>
                        match kv.2 with
                        | VList vs =>
                            existsb (fun v => match v with
                                              | VRef r => withinb n' h r x
                                              | _ => false
                                              end) vs
                        | _ => false
                        end) (map_to_list d)
         | None => false
         end
  end.

(** * Facts about the calendar and the month window *)

Section CalendarFacts.
Local Open Scope Z_scope.

Example isoformat_samples :
  date_isoformat (Date 2024 3 5) = "2024-03-05"%string
  /\ datetime_isoformat "T" (DateTime (Date 987 12 31) 7 0 59 1500)
     = "0987-12-31T07:00:59.001500"%string
  /\ str_int (-120) = "-120"%string /\ str_int 0 = "0"%string
  /\ str_int 1000 = "1000"%string.
Proof. repeat split; reflexivity. Qed.

Lemma div_step (k y : Z) :
  0 < k -> y / k - (y - 1) / k = if y mod k =? 0 then 1 else 0.
Proof.
  intros Hk.
  pose proof (Z.div_mod y k ltac:(lia)) as Hy.
  pose proof (Z.mod_pos_bound y k Hk) as Hb.
  destruct (Z.eqb_spec (y mod k) 0) as [E|E].
  - assert (H : (y - 1) / k = y / k - 1).
    { symmetry. apply (Z.div_unique (y - 1) k (y / k - 1) (k - 1)); [lia|].
      rewrite Z.mul_sub_distr_l. lia. }
    lia.
  - assert (H : (y - 1) / k = y / k).
    { symmetry. apply (Z.div_unique (y - 1) k (y / k) (y mod k - 1)); lia. }
    lia.
Qed.

Lemma mod_of_multiple (a b c y : Z) :
  a = b * c -> a <> 0 -> y mod a = 0 -> y mod b = 0.
Proof.
  intros -> Ha H. apply Z.mod_divide in H; [|assumption].
  apply Z.mod_divide; [lia|].
  eapply Z.divide_trans; [|exact H]. exists c. apply Z.mul_comm.
Qed.

(** A year has 365 days, and one more when it is a leap year. *)
Lemma days_before_year_succ (y : Z) :
  days_before_year (y + 1) - days_before_year y
  = 365 + (if is_leap y then 1 else 0).
Proof.
  unfold days_before_year, is_leap. cbv zeta.
  replace (y + 1 - 1) with y by lia.
  pose proof (div_step 4 y ltac:(lia)) as H4.
  pose proof (div_step 100 y ltac:(lia)) as H100.
  pose proof (div_step 400 y ltac:(lia)) as H400.
  pose proof (mod_of_multiple 100 4 25 y eq_refl ltac:(lia)) as Hd1.
  pose proof (mod_of_multiple 400 100 4 y eq_refl ltac:(lia)) as Hd2.
  destruct (Z.eqb_spec (y mod 4) 0), (Z.eqb_spec (y mod 100) 0),
    (Z.eqb_spec (y mod 400) 0); simpl; lia.
Qed.

Lemma month_cases (m : Z) :
  1 <= m <= 12 ->
  m = 1 \/ m = 2 \/ m = 3 \/ m = 4 \/ m = 5 \/ m = 6 \/ m = 7 \/ m = 8
  \/ m = 9 \/ m = 10 \/ m = 11 \/ m = 12.
Proof. lia. Qed.

Lemma check_first_day (y m : Z) :
  MINYEAR <= y <= MAXYEAR -> 1 <= m <= 12 -> check_date_fields y m 1 = true.
Proof.
  intros Hy Hm. unfold check_date_fields, MINYEAR, MAXYEAR in *.
  assert (1 <= days_in_month y m).
  { unfold days_in_month.
    destruct (month_cases m Hm) as [->|[->|[->|[->|[->|[->|[->|[->|[->|[->|[->| ->]]]]]]]]]]];
      simpl; try lia. destruct (is_leap y); lia. }
  repeat (apply andb_true_intro; split); apply Z.leb_le; lia.
Qed.

Lemma mk_datetime_first_day (y m : Z) :
  MINYEAR <= y <= MAXYEAR -> 1 <= m <= 12 ->
  mk_datetime y m 1 = Some (DateTime (Date y m 1) 0 0 0 0).
Proof.
  intros Hy Hm. unfold mk_datetime, mk_date.
  rewrite check_first_day by assumption. reflexivity.
Qed.

(** The constructor refuses every month outside 1..12. *)
Lemma mk_datetime_bad_month (y m d : Z) :
  ~ (1 <= m <= 12) -> mk_datetime y m d = None.
Proof.
  intros Hm. unfold mk_datetime, mk_date, check_date_fields.
  destruct (MINYEAR <=? y), (y <=? MAXYEAR); simpl; try reflexivity.
  destruct (Z.leb_spec 1 m); simpl; try reflexivity.
  destruct (Z.leb_spec m 12); simpl; try reflexivity. lia.
Qed.

Lemma month_window_bad_month (y m : Z) :
  ~ (1 <= m <= 12) -> month_window y m = None.
Proof.
  intros Hm. unfold month_window. rewrite (mk_datetime_bad_month y m 1 Hm).
  reflexivity.
Qed.

(** C3, as amended. For every month in 1..12 and every year in 1..9999,
    December of the last year 9999 apart, the month window is
    [first day of (year, month), first day of the month after), with the
    year carried over after December; its start is before its end and the
    two are as many days apart as the month has days. *)
Theorem month_window_spec (y m : Z) :
  1 <= m <= 12 -> MINYEAR <= y <= MAXYEAR -> ~ (m = 12 /\ y = MAXYEAR) ->
  month_window y m = Some (first_day y m, first_day_of_next y m)
  /\ date_ltb (first_day y m) (first_day_of_next y m) = true
  /\ date_sub (first_day_of_next y m) (first_day y m) = days_in_month y m.
Proof.
  intros Hm Hy Hlast. split; [|split].
  - unfold month_window. rewrite (mk_datetime_first_day y m Hy Hm). simpl.
    unfold first_day, first_day_of_next.
    destruct (Z.eqb_spec m 12) as [->|Hne].
    + rewrite mk_datetime_first_day; [reflexivity| |lia].
      unfold MINYEAR, MAXYEAR in *. lia.
    + rewrite mk_datetime_first_day; [reflexivity|assumption|lia].
  - unfold date_ltb, first_day, first_day_of_next.
    destruct (Z.eqb_spec m 12) as [->|Hne]; simpl.
    + replace (y <? y + 1) with true by (symmetry; apply Z.ltb_lt; lia).
      reflexivity.
    + rewrite Z.eqb_refl.
      replace (m <? m + 1) with true by (symmetry; apply Z.ltb_lt; lia).
      simpl. apply orb_true_r.
  - unfold date_sub, toordinal, first_day, first_day_of_next.
    destruct (Z.eqb_spec m 12) as [->|Hne]; simpl.
    + pose proof (days_before_year_succ y) as Hs.
      unfold days_before_month, days_in_month. simpl.
      destruct (is_leap (y + 1)), (is_leap y); simpl in *; lia.
    + unfold days_before_month, days_in_month.
      destruct (month_cases m Hm) as [->|[->|[->|[->|[->|[->|[->|[->|[->|[->|[->| ->]]]]]]]]]]];
        try lia; simpl; destruct (is_leap y); simpl; lia.
Qed.

End CalendarFacts.

(** * Facts about the document serializer *)

(** ** Progress of values, records and heaps under serialization *)

Lemma conv_not_temporal v : is_temporal (conv v) = false.
Proof. unfold conv. destruct v; reflexivity. Qed.

Lemma conv_fixed v : is_temporal v = false -> conv v = v.
Proof. unfold conv. intros ->. reflexivity. Qed.

Lemma conv_idem v : conv (conv v) = conv v.
Proof. apply conv_fixed, conv_not_temporal. Qed.

Lemma conv_list v vs : conv v = VList vs -> v = VList vs.
Proof. unfold conv. destruct v; simpl; congruence. Qed.

Lemma vstep_refl v : vstep v v.
Proof. left. reflexivity. Qed.

Lemma vstep_trans a b c : vstep a b -> vstep b c -> vstep a c.
Proof.
  intros [->| ->] [->| ->]; unfold vstep; rewrite ?conv_idem; auto.
Qed.

Lemma vstep_fixed v v' : is_temporal v = false -> vstep v v' -> v' = v.
Proof. intros H [->| ->]; [reflexivity|apply conv_fixed, H]. Qed.

Lemma vstep_conv v v' : vstep (conv v) v' -> v' = conv v.
Proof. apply vstep_fixed, conv_not_temporal. Qed.

Lemma vstep_list v vs : vstep v (VList vs) -> v = VList vs.
Proof. intros [H|H]; [congruence|]. symmetry in H. apply conv_list, H. Qed.

Lemma dstep_refl d : dstep d d.
Proof.
  split; [|reflexivity]. intros k. destruct (d !! k); constructor.
  apply vstep_refl.
Qed.

Lemma dstep_trans a b c : dstep a b -> dstep b c -> dstep a c.
Proof.
  intros [H1 I1] [H2 I2]. split; [|congruence].
  intros k. specialize (H1 k). specialize (H2 k).
  destruct H1 as [x y Hxy|]; inversion H2; subst; constructor.
  eapply vstep_trans; eassumption.
Qed.

Lemma dstep_lookup d d' k v :
  dstep d d' -> d !! k = Some v -> exists v', d' !! k = Some v' /\ vstep v v'.
Proof.
  intros [H _] Hk. specialize (H k). rewrite Hk in H. inversion H; subst.
  eauto.
Qed.

Lemma dstep_lookup_inv d d' k v' :
  dstep d d' -> d' !! k = Some v' -> exists v, d !! k = Some v /\ vstep v v'.
Proof.
  intros [H _] Hk. specialize (H k). rewrite Hk in H. inversion H; subst.
  eauto.
Qed.

Lemma dstep_has_id d d' : dstep d d' -> has_id d' -> has_id d.
Proof. intros [_ E] (v & Hv & Hn). exists v. rewrite <- E. auto. Qed.

Lemma dstep_no_id d d' : dstep d d' -> ~ has_id d -> ~ has_id d'.
Proof. intros H Hn Hd. apply Hn. eapply dstep_has_id; eassumption. Qed.

Lemma has_id_lookup d d' : d' !! "_id" = d !! "_id" -> has_id d -> has_id d'.
Proof. intros E (v & Hv & Hn). exists v. rewrite E. auto. Qed.

Lemma renamed_no_id s d : ~ has_id (renamed s d).
Proof.
  intros (v & Hv & _). unfold renamed in Hv.
  rewrite lookup_delete_eq in Hv. discriminate.
Qed.

Lemma dstep_renamed s d d' : dstep d d' -> dstep (renamed s d) (renamed s d').
Proof.
  intros [H E]. unfold renamed. split.
  - intros k. destruct (decide (k = "_id")) as [->|Hk].
    + rewrite !lookup_delete_eq. constructor.
    + rewrite !lookup_delete_ne by congruence.
      destruct (decide (k = "id")) as [->|Hk'].
      * rewrite !lookup_insert_eq. constructor. apply vstep_refl.
      * rewrite !lookup_insert_ne by congruence. apply H.
  - rewrite !lookup_delete_eq. reflexivity.
Qed.

Lemma dprog_refl d : dprog d d.
Proof. left. apply dstep_refl. Qed.

Lemma dprog_no_id d d' : ~ has_id d -> dprog d d' -> dstep d d'.
Proof. intros Hn [H|[H _]]; [assumption|contradiction]. Qed.

Lemma dprog_trans a b c : dprog a b -> dprog b c -> dprog a c.
Proof.
  intros [H1|(Ha & s & H1)] [H2|(Hb & t & H2)].
  - left. eapply dstep_trans; eassumption.
  - right. split; [eapply dstep_has_id; eassumption|].
    exists t. eapply dstep_trans; [apply dstep_renamed, H1|assumption].
  - right. split; [assumption|]. exists s. eapply dstep_trans; eassumption.
  - exfalso. apply (renamed_no_id s a). eapply dstep_has_id; eassumption.
Qed.

Lemma hprog_refl h : hprog h h.
Proof. intros x. destruct (h !! x); constructor. apply dprog_refl. Qed.

Lemma hprog_trans a b c : hprog a b -> hprog b c -> hprog a c.
Proof.
  intros H1 H2 x. specialize (H1 x). specialize (H2 x).
  destruct H1; inversion H2; subst; constructor.
  eapply dprog_trans; eassumption.
Qed.

Lemma hprog_lookup h h' x d :
  hprog h h' -> h !! x = Some d -> exists d', h' !! x = Some d' /\ dprog d d'.
Proof.
  intros H Hx. specialize (H x). rewrite Hx in H. inversion H; subst. eauto.
Qed.

Lemma hprog_insert h x d d' :
  h !! x = Some d -> dprog d d' -> hprog h (<[x := d']> h).
Proof.
  intros Hx Hd y. destruct (decide (y = x)) as [->|Hy].
  - rewrite lookup_insert_eq, Hx. constructor. assumption.
  - rewrite lookup_insert_ne by congruence.
    destruct (h !! y); constructor. apply dprog_refl.
Qed.

(** A list in a record after some progress was already there before. *)
Lemma dprog_list d d' k vs :
  dprog d d' -> d' !! k = Some (VList vs) -> d !! k = Some (VList vs).
Proof.
  intros [H|(_ & s & H)] Hk.
  - destruct (dstep_lookup_inv _ _ _ _ H Hk) as (v & Hv & Hs).
    apply vstep_list in Hs. congruence.
  - destruct (dstep_lookup_inv _ _ _ _ H Hk) as (v & Hv & Hs).
    apply vstep_list in Hs. subst v. unfold renamed in Hv.
    destruct (decide (k = "_id")) as [->|Hk1];
      [rewrite lookup_delete_eq in Hv; discriminate|].
    rewrite lookup_delete_ne in Hv by congruence.
    destruct (decide (k = "id")) as [->|Hk2];
      [rewrite lookup_insert_eq in Hv; discriminate|].
    rewrite lookup_insert_ne in Hv by congruence. assumption.
Qed.

(** A record in wire form makes no further progress. *)
Lemma clean_dprog d d' : clean d -> dprog d d' -> d' = d.
Proof.
  intros [Hn Ht] Hp. apply dprog_no_id in Hp; [|assumption].
  apply map_eq. intros k. destruct (d !! k) as [v|] eqn:E.
  - destruct (dstep_lookup _ _ _ _ Hp E) as (v' & Hv' & Hs).
    rewrite Hv'. f_equal. apply vstep_fixed; eauto.
  - destruct Hp as [Hp _]. specialize (Hp k). rewrite E in Hp.
    inversion Hp. reflexivity.
Qed.

Lemma done_hprog n : forall h h' x, done n h x -> hprog h h' -> done n h' x.
Proof.
  induction n as [|n IH]; intros h h' x; simpl; [intros []|].
  intros (d & Hd & Hc & Hch) Hp.
  destruct (hprog_lookup _ _ _ _ Hp Hd) as (d' & Hd' & Hdp).
  apply clean_dprog in Hdp; [|assumption]. subst d'.
  exists d. split; [assumption|]. split; [assumption|].
  intros k vs r Hk Hr. eapply IH; [|exact Hp]. eapply Hch; eassumption.
Qed.

Lemma nested_hprog n : forall h h' x, nested n h x -> hprog h h' -> nested n h' x.
Proof.
  induction n as [|n IH]; intros h h' x; simpl; [intros []|].
  intros (d & Hd & Hch) Hp.
  destruct (hprog_lookup _ _ _ _ Hp Hd) as (d' & Hd' & Hdp).
  exists d'. split; [assumption|].
  intros k vs r Hk Hr. eapply IH; [|eassumption].
  eapply Hch; [|eassumption]. eapply dprog_list; eassumption.
Qed.

Lemma set_item_lookup l k v (h : heap) d :
  h !! l = Some d -> set_item l k v h = <[l := <[k := v]> d]> h.
Proof. intros H. unfold set_item. rewrite H. reflexivity. Qed.

Lemma set_item_same l k v (h : heap) d :
  h !! l = Some d -> d !! k = Some v -> set_item l k v h = h.
Proof.
  intros H Hk. rewrite (set_item_lookup _ _ _ _ _ H).
  rewrite (insert_id d) by assumption. apply insert_id, H.
Qed.

(** ** The loops of [serialize_doc], for a recursive call that behaves *)

Section LoopFacts.

Variable n : nat.
Variable self : heap -> loc -> option heap.
Hypothesis self_spec :
  forall h x h', self h x = Some h' -> hprog h h' /\ done n h' x.

Lemma walk_list_spec items : forall acc h h' out,
  walk_list self items acc h = Some (h', out) ->
  out = (acc ++ items)%list /\ hprog h h'
  /\ forall r, VRef r ∈ items -> done n h' r.
Proof using self_spec.
  induction items as [|item rest IH]; intros acc h h' out; simpl.
  - intros [= <- <-]. rewrite app_nil_r. split; [reflexivity|].
    split; [apply hprog_refl|]. intros r Hr. inversion Hr.
  - assert (Hother : (forall r, item <> VRef r) ->
        walk_list self rest (acc ++ [item]) h = Some (h', out) ->
        out = (acc ++ item :: rest)%list /\ hprog h h'
        /\ forall r, VRef r ∈ item :: rest -> done n h' r).
    { intros Hne H. apply IH in H as (-> & Hp & Hd).
      split; [rewrite <- app_assoc; reflexivity|]. split; [assumption|].
      intros r Hr. apply elem_of_cons in Hr as [Heq|Hr]; [|auto].
      exfalso. eapply Hne. symmetry. exact Heq. }
    destruct item; try (apply Hother; congruence).
    destruct (self h l) as [h1|] eqn:E; simpl; [|discriminate].
    intros H. apply IH in H as (-> & Hp & Hd).
    destruct (self_spec _ _ _ E) as [Hp1 Hd1].
    split; [rewrite <- app_assoc; reflexivity|].
    split; [eapply hprog_trans; eassumption|].
    intros r Hr. apply elem_of_cons in Hr as [Heq|Hr]; [|auto].
    inversion Heq; subst. eapply done_hprog; eassumption.
Qed.

Variable l : loc.
Variable snap : dict.
Hypothesis snap_no_id : ~ has_id snap.

Lemma item_done_hprog h h' k v :
  item_done n l h k v -> hprog h h' -> item_done n l h' k v.
Proof.
  intros (d & Hd & Hn & Hk & Hch) Hp.
  destruct (hprog_lookup _ _ _ _ Hp Hd) as (d' & Hd' & Hdp).
  apply dprog_no_id in Hdp; [|assumption].
  exists d'. split; [assumption|]. split; [eapply dstep_no_id; eassumption|].
  split.
  - destruct (dstep_lookup _ _ _ _ Hdp Hk) as (v' & Hv' & Hs).
    apply vstep_conv in Hs. congruence.
  - intros vs r Hv Hr. eapply done_hprog; eauto.
Qed.

Lemma temporal_key_not_id k v :
  snap !! k = Some v -> is_temporal v = true -> k <> "_id".
Proof using snap_no_id.
  intros Hk Ht ->. apply snap_no_id. exists v. split; [assumption|].
  destruct v; simpl in *; congruence.
Qed.

Lemma dstep_insert_conv dc k v :
  dstep snap dc -> snap !! k = Some v -> k <> "_id" ->
  dstep dc (<[k := conv v]> dc).
Proof.
  intros Hs Hk Hne. split.
  - intros j. destruct (decide (j = k)) as [->|Hj].
    + rewrite lookup_insert_eq.
      destruct (dstep_lookup _ _ _ _ Hs Hk) as (x & Hx & Hvx). rewrite Hx.
      constructor. destruct Hvx as [->| ->]; [right|left]; reflexivity.
    + rewrite lookup_insert_ne by congruence.
      destruct (dc !! j); constructor. apply vstep_refl.
  - rewrite lookup_insert_ne by congruence. reflexivity.
Qed.

(** The first statement of a turn: [if isinstance(v, (datetime, date)):
    doc[k] = v.isoformat()]. *)
Lemma convert_first h dc k v :
  h !! l = Some dc -> dstep snap dc -> snap !! k = Some v ->
  let h1 := if is_temporal v then set_item l k (VStr (isoformat v)) h else h in
  hprog h h1
  /\ exists d1, h1 !! l = Some d1 /\ dstep snap d1 /\ d1 !! k = Some (conv v).
Proof using snap_no_id.
  intros Hl Hs Hk. simpl. destruct (is_temporal v) eqn:Ht.
  - pose proof (temporal_key_not_id _ _ Hk Ht) as Hne.
    assert (Hc : conv v = VStr (isoformat v)) by (unfold conv; rewrite Ht; reflexivity).
    rewrite (set_item_lookup _ _ _ _ _ Hl), <- Hc.
    pose proof (dstep_insert_conv _ _ _ Hs Hk Hne) as Hd.
    split; [apply (hprog_insert _ _ _ _ Hl); left; exact Hd|].
    exists (<[k := conv v]> dc). rewrite !lookup_insert_eq.
    split; [reflexivity|]. split; [eapply dstep_trans; eassumption|reflexivity].
  - split; [apply hprog_refl|]. exists dc. split; [assumption|].
    split; [assumption|].
    destruct (dstep_lookup _ _ _ _ Hs Hk) as (x & Hx & Hvx).
    apply vstep_fixed in Hvx; [|assumption]. subst x.
    rewrite conv_fixed by assumption. assumption.
Qed.

Lemma convert_item_spec h h' dc k v :
  h !! l = Some dc -> dstep snap dc -> snap !! k = Some v ->
  convert_item self l k v h = Some h' ->
  hprog h h' /\ (exists d', h' !! l = Some d' /\ dstep snap d')
  /\ item_done n l h' k v.
Proof using self_spec snap_no_id.
  intros Hl Hs Hk. unfold convert_item.
  destruct (convert_first _ _ _ _ Hl Hs Hk) as (Hp1 & d1 & Hl1 & Hs1 & Hk1).
  set (h1 := if is_temporal v then set_item l k (VStr (isoformat v)) h else h) in *.
  clearbody h1.
  assert (Hplain : (forall vs, v <> VList vs) -> Some h1 = Some h' ->
            hprog h h' /\ (exists d', h' !! l = Some d' /\ dstep snap d')
            /\ item_done n l h' k v).
  { intros Hne [= <-]. split; [assumption|]. split; [eauto|].
    exists d1. split; [assumption|].
    split; [eapply dstep_no_id; eassumption|]. split; [assumption|].
    intros vs r Hv. exfalso. eapply Hne, Hv. }
  destruct v; try (apply Hplain; congruence).
  destruct (walk_list self vs [] h1) as [[h2 out]|] eqn:Hw; simpl; [|discriminate].
  apply walk_list_spec in Hw as (-> & Hp2 & Hd2). simpl.
  destruct (hprog_lookup _ _ _ _ Hp2 Hl1) as (d2 & Hl2 & Hdp).
  apply dprog_no_id in Hdp; [|eapply dstep_no_id; eassumption].
  assert (Hk2 : d2 !! k = Some (VList vs)).
  { destruct (dstep_lookup _ _ _ _ Hdp Hk1) as (x & Hx & Hvx).
    apply vstep_conv in Hvx. rewrite Hx, Hvx. reflexivity. }
  rewrite (set_item_same _ _ _ _ _ Hl2 Hk2). intros [= <-].
  split; [eapply hprog_trans; eassumption|].
  split; [exists d2; split; [assumption|eapply dstep_trans; eassumption]|].
  exists d2. split; [assumption|].
  split; [eapply dstep_no_id; [|exact snap_no_id]; eapply dstep_trans; eassumption|].
  split; [assumption|]. intros vs' r [= <-]. apply Hd2.
Qed.

Lemma convert_items_spec items : forall h h' dc,
  h !! l = Some dc -> dstep snap dc ->
  (forall k v, (k, v) ∈ items -> snap !! k = Some v) ->
  convert_items self l items h = Some h' ->
  hprog h h' /\ (exists d', h' !! l = Some d' /\ dstep snap d')
  /\ forall k v, (k, v) ∈ items -> item_done n l h' k v.
Proof using self_spec snap_no_id.
  induction items as [|[k v] rest IH]; intros h h' dc Hl Hs Hin; simpl.
  - intros [= <-]. split; [apply hprog_refl|]. split; [eauto|].
    intros k v Hkv. inversion Hkv.
  - destruct (convert_item self l k v h) as [h1|] eqn:E; simpl; [|discriminate].
    intros Hrest.
    assert (Hk : snap !! k = Some v) by (apply Hin; left).
    destruct (convert_item_spec _ _ _ _ _ Hl Hs Hk E) as (Hp1 & (d1 & Hl1 & Hs1) & Hd1).
    apply (IH _ _ _ Hl1 Hs1) in Hrest as (Hp2 & Hex & Hd2);
      [|intros; apply Hin; right; assumption].
    split; [eapply hprog_trans; eassumption|]. split; [assumption|].
    intros k' v' Hkv. apply elem_of_cons in Hkv as [[= -> ->]|Hkv]; [|auto].
    eapply item_done_hprog; eassumption.
Qed.

(** The same loops never fail when the recursive call never fails on the
    records nested in the lists. *)
Hypothesis self_total :
  forall h x, nested n h x -> exists h', self h x = Some h'.

Lemma walk_list_total items : forall acc h,
  (forall r, VRef r ∈ items -> nested n h r) ->
  exists h' out, walk_list self items acc h = Some (h', out).
Proof using self_spec self_total.
  induction items as [|item rest IH]; intros acc h Hn; simpl; [eauto|].
  assert (Hrest : forall r, VRef r ∈ rest -> nested n h r)
    by (intros; apply Hn; right; assumption).
  destruct item; try (apply IH; assumption).
  destruct (self_total h l0) as [h1 E]; [apply Hn; left|].
  rewrite E. simpl. apply IH. intros r Hr.
  eapply nested_hprog; [apply Hrest, Hr|]. apply (self_spec _ _ _ E).
Qed.

Lemma convert_item_total h dc k v :
  h !! l = Some dc -> dstep snap dc -> snap !! k = Some v ->
  (forall vs r, v = VList vs -> VRef r ∈ vs -> nested n h r) ->
  exists h', convert_item self l k v h = Some h'.
Proof using self_spec self_total snap_no_id.
  intros Hl Hs Hk Hn. unfold convert_item.
  destruct (convert_first _ _ _ _ Hl Hs Hk) as (Hp1 & _).
  set (h1 := if is_temporal v then set_item l k (VStr (isoformat v)) h else h) in *.
  clearbody h1. destruct v; eauto.
  destruct (walk_list_total vs [] h1) as (h2 & out & E).
  - intros r Hr. eapply nested_hprog; [|eassumption]. eapply Hn; eauto.
  - rewrite E. simpl. eauto.
Qed.

Lemma convert_items_total items : forall h dc,
  h !! l = Some dc -> dstep snap dc ->
  (forall k v, (k, v) ∈ items -> snap !! k = Some v) ->
  (forall k v vs r, (k, v) ∈ items -> v = VList vs -> VRef r ∈ vs -> nested n h r) ->
  exists h', convert_items self l items h = Some h'.
Proof using self_spec self_total snap_no_id.
  induction items as [|[k v] rest IH]; intros h dc Hl Hs Hin Hn; simpl; [eauto|].
  assert (Hk : snap !! k = Some v) by (apply Hin; left).
  destruct (convert_item_total h dc k v Hl Hs Hk) as [h1 E].
  { intros vs r Hv Hr. eapply Hn; [left| |]; eassumption. }
  rewrite E. simpl.
  destruct (convert_item_spec _ _ _ _ _ Hl Hs Hk E) as (Hp1 & (d1 & Hl1 & Hs1) & _).
  apply (IH _ _ Hl1 Hs1).
  - intros; apply Hin; right; assumption.
  - intros k' v' vs r Hkv Hv Hr. eapply nested_hprog; [|eassumption].
    eapply Hn; [right| |]; eassumption.
Qed.

End LoopFacts.

(** ** The serializer itself *)

Lemma rename_id_cases h d :
  (~ has_id d /\ rename_id h d = d)
  \/ (has_id d /\ exists s, rename_id h d = renamed s d).
Proof.
  unfold rename_id, has_id, renamed.
  destruct (d !! "_id") as [v|] eqn:E.
  - destruct (is_None v) eqn:Hv.
    + left. split; [|reflexivity]. intros (v' & [= <-] & Hn). congruence.
    + right. split; [eauto|]. eauto.
  - left. split; [|reflexivity]. intros (v' & Hv & _). discriminate.
Qed.

Lemma rename_id_no_id h d : ~ has_id (rename_id h d).
Proof.
  destruct (rename_id_cases h d) as [[Hn ->]|(_ & s & ->)];
    [assumption|apply renamed_no_id].
Qed.

Lemma rename_id_dprog h d : dprog d (rename_id h d).
Proof.
  destruct (rename_id_cases h d) as [[Hn ->]|(Hi & s & ->)].
  - apply dprog_refl.
  - right. split; [assumption|]. exists s. apply dstep_refl.
Qed.

Lemma clean_empty : clean (∅ : dict).
Proof.
  split.
  - intros (v & Hv & _). rewrite lookup_empty in Hv. discriminate.
  - intros k v Hv. rewrite lookup_empty in Hv. discriminate.
Qed.

Lemma serialized_empty h : serialized h ∅ = ∅.
Proof.
  unfold serialized, rename_id. rewrite lookup_empty. apply fmap_empty.
Qed.

(** What a call that returns has done: every record of the heap has only
    moved towards its wire form, the record of the call is in wire form with
    the records of its lists, and it holds its serialized content. *)
Lemma serialize_doc_spec n : forall h l h',
  serialize_doc n h l = Some h' ->
  hprog h h' /\ done n h' l
  /\ forall d, h !! l = Some d -> h' !! l = Some (serialized h d).
Proof.
  induction n as [|n IH]; intros h l h'; simpl; [discriminate|].
  destruct (h !! l) as [d|] eqn:Hd; simpl; [|discriminate].
  destruct (decide (d = ∅)) as [->|Hne].
  - intros [= <-]. split; [apply hprog_refl|]. split.
    + exists ∅. split; [assumption|]. split; [apply clean_empty|].
      intros k vs r Hk. rewrite lookup_empty in Hk. discriminate.
    + intros d [= <-]. rewrite serialized_empty. assumption.
  - intros Hc.
    assert (Hself : forall h x h', serialize_doc n h x = Some h' ->
                      hprog h h' /\ done n h' x).
    { intros h0 x h0' H0. apply IH in H0 as (? & ? & _). auto. }
    pose proof (rename_id_no_id h d) as Hno.
    apply (convert_items_spec n _ Hself l (rename_id h d) Hno _ _ _ (rename_id h d))
      in Hc as (Hp & (d' & Hl' & Hs') & Hitems).
    2: apply lookup_insert_eq.
    2: apply dstep_refl.
    2: { intros k v Hkv. apply elem_of_map_to_list in Hkv. exact Hkv. }
    assert (Hd' : d' = serialized h d).
    { apply map_eq. intros k. unfold serialized. rewrite lookup_fmap.
      destruct (rename_id h d !! k) as [v|] eqn:Ek; simpl.
      - destruct (Hitems k v) as (d2 & Hl2 & _ & Hk2 & _).
        { apply elem_of_map_to_list. exact Ek. }
        congruence.
      - destruct Hs' as [Hs' _]. specialize (Hs' k). rewrite Ek in Hs'.
        inversion Hs'. reflexivity. }
    split; [|split].
    + eapply hprog_trans; [|exact Hp].
      apply (hprog_insert _ _ _ _ Hd), rename_id_dprog.
    + exists d'. split; [assumption|]. split; [split|].
      * eapply dstep_no_id; eassumption.
      * intros k v Hk. rewrite Hd' in Hk. unfold serialized in Hk.
        rewrite lookup_fmap in Hk.
        destruct (rename_id h d !! k) as [v0|]; simpl in Hk; [|discriminate].
        injection Hk as <-. apply conv_not_temporal.
      * intros k vs r Hk Hr.
        destruct (dstep_lookup_inv _ _ _ _ Hs' Hk) as (v & Hv & Hvs).
        apply vstep_list in Hvs. subst v.
        destruct (Hitems k (VList vs)) as (d2 & Hl2 & _ & _ & Hch).
        { apply elem_of_map_to_list. exact Hv. }
        eapply Hch; [reflexivity|assumption].
    + intros d0 [= <-]. rewrite Hl'. f_equal. exact Hd'.
Qed.

Lemma walk_list_noop self items : forall acc (h : heap),
  (forall r, VRef r ∈ items -> self h r = Some h) ->
  walk_list self items acc h = Some (h, (acc ++ items)%list).
Proof.
  induction items as [|item rest IH]; intros acc h Hs; simpl.
  - rewrite app_nil_r. reflexivity.
  - assert (Hrest : walk_list self rest (acc ++ [item]) h
                    = Some (h, (acc ++ item :: rest)%list)).
    { rewrite IH; [rewrite <- app_assoc; reflexivity|].
      intros r Hr. apply Hs. right. assumption. }
    destruct item; try exact Hrest.
    rewrite (Hs l) by left. simpl. exact Hrest.
Qed.

Lemma convert_items_noop self l items : forall (h : heap) d,
  h !! l = Some d ->
  (forall k v, (k, v) ∈ items ->
     d !! k = Some v /\ is_temporal v = false
     /\ forall vs r, v = VList vs -> VRef r ∈ vs -> self h r = Some h) ->
  convert_items self l items h = Some h.
Proof.
  induction items as [|[k v] rest IH]; intros h d Hl Hin; simpl; [reflexivity|].
  destruct (Hin k v) as (Hk & Ht & Hch); [left|].
  assert (E : convert_item self l k v h = Some h).
  { unfold convert_item. rewrite Ht.
    destruct v; try reflexivity.
    rewrite walk_list_noop by (intros r Hr; eapply Hch; eauto). simpl.
    rewrite (set_item_same _ _ _ _ _ Hl Hk). reflexivity. }
  rewrite E. simpl. apply (IH _ _ Hl).
  intros k' v' Hkv. apply Hin. right. assumption.
Qed.

(** On a record in wire form the serializer changes nothing. *)
Lemma done_noop n : forall h l, done n h l -> serialize_doc n h l = Some h.
Proof.
  induction n as [|n IH]; intros h l; simpl; [intros []|].
  intros (d & Hd & [Hno Ht] & Hch). rewrite Hd. simpl.
  destruct (decide (d = ∅)); [reflexivity|].
  destruct (rename_id_cases h d) as [[_ ->]|[Hi _]]; [|contradiction].
  rewrite (insert_id h l d Hd).
  apply (convert_items_noop _ _ _ _ d Hd).
  intros k v Hkv. apply elem_of_map_to_list in Hkv.
  split; [assumption|]. split; [eapply Ht; eassumption|].
  intros vs r -> Hr. apply IH. eapply Hch; eassumption.
Qed.

(** Serializing again what a call has returned changes nothing. *)
Lemma serialize_doc_again n h l h1 :
  serialize_doc n h l = Some h1 -> serialize_doc n h1 l = Some h1.
Proof. intros H. apply done_noop. apply (serialize_doc_spec _ _ _ _ H). Qed.

(** The serializer returns on every record nested within the recursion
    limit. *)
Lemma serialize_doc_total n : forall h l,
  nested n h l -> exists h', serialize_doc n h l = Some h'.
Proof.
  induction n as [|n IH]; intros h l; simpl; [intros []|].
  intros (d & Hd & Hch). rewrite Hd. simpl.
  destruct (decide (d = ∅)); [eauto|].
  assert (Hself : forall h x h', serialize_doc n h x = Some h' ->
                    hprog h h' /\ done n h' x).
  { intros h0 x h0' H0. apply serialize_doc_spec in H0 as (? & ? & _). auto. }
  apply (convert_items_total n _ Hself l (rename_id h d) (rename_id_no_id h d) IH
           _ _ (rename_id h d)).
  - apply lookup_insert_eq.
  - apply dstep_refl.
  - intros k v Hkv. apply elem_of_map_to_list in Hkv. exact Hkv.
  - intros k v vs r Hkv -> Hr. apply elem_of_map_to_list in Hkv.
    eapply nested_hprog.
    + eapply Hch; [|exact Hr]. eapply dprog_list; [apply rename_id_dprog|exact Hkv].
    + apply (hprog_insert _ _ _ _ Hd), rename_id_dprog.
Qed.

(** The fields of the serialized record. *)
Lemma serialized_native_id h d : has_id d -> serialized h d !! "_id" = None.
Proof.
  intros Hi. unfold serialized. rewrite lookup_fmap.
  destruct (rename_id_cases h d) as [[Hn _]|(_ & s & ->)]; [contradiction|].
  unfold renamed. rewrite lookup_delete_eq. reflexivity.
Qed.

Lemma serialized_id h d v :
  d !! "_id" = Some v -> is_None v = false ->
  serialized h d !! "id" = Some (VStr (py_str h v)).
Proof.
  intros Hv Hn. unfold serialized, rename_id. rewrite Hv, Hn, lookup_fmap.
  rewrite lookup_delete_ne by discriminate. rewrite lookup_insert_eq.
  reflexivity.
Qed.

Lemma serialized_other h d k :
  k <> "_id" -> k <> "id" -> serialized h d !! k = conv <$> d !! k.
Proof.
  intros H1 H2. unfold serialized. rewrite lookup_fmap. f_equal.
  destruct (rename_id_cases h d) as [[_ ->]|(_ & s & ->)]; [reflexivity|].
  unfold renamed. rewrite lookup_delete_ne by congruence.
  apply lookup_insert_ne. congruence.
Qed.

Lemma serialized_no_id_field h d k :
  ~ has_id d -> serialized h d !! k = conv <$> d !! k.
Proof.
  intros Hn. unfold serialized. rewrite lookup_fmap.
  destruct (rename_id_cases h d) as [[_ ->]|(Hi & _)]; [reflexivity|contradiction].
Qed.


(** C5. The serializer is idempotent: on every record nested within the
    recursion limit it returns, and serializing the record it returned once
    more returns that same record and leaves every record unchanged. *)
Theorem serialize_doc_idempotent n h l :
  nested n h l ->
  exists h1, serialize_doc n h l = Some h1 /\ serialize_doc n h1 l = Some h1.
Proof.
  intros Hn. destruct (serialize_doc_total _ _ _ Hn) as [h1 E].
  exists h1. split; [assumption|]. eapply serialize_doc_again, E.
Qed.

Lemma nestedb_sound n : forall h l, nestedb n h l = true -> nested n h l.
Proof.
  induction n as [|n IH]; intros h l; simpl; [discriminate|].
  destruct (h !! l) as [d|]; [|discriminate]. intros H.
  exists d. split; [reflexivity|]. intros k vs r Hk Hr.
  rewrite forallb_forall in H.
  specialize (H (k, VList vs)). simpl in H.
  rewrite forallb_forall in H. apply IH.
  apply (H ltac:(apply list_elem_of_In, elem_of_map_to_list; exact Hk) (VRef r)).
  apply list_elem_of_In. exact Hr.
Qed.

(** * Facts about the handlers *)

(** ** Identifiers *)

Lemma model_dump_empty (p : ActivityUpdate) :
  model_dump_exclude_none p = [] <->
  u_date p = None /\ u_name p = None /\ u_category p = None
  /\ u_duration p = None /\ u_result p = None /\ u_notes p = None
  /\ u_income p = None /\ u_expense p = None /\ u_finance_category p = None.
Proof.
  unfold model_dump_exclude_none. destruct p as [a b c d e f g i j]. simpl.
  split.
  - destruct a, b, c, d, e, f, g, i, j; simpl; intros H; try discriminate H.
    repeat split.
  - intros (-> & -> & -> & -> & -> & -> & -> & -> & ->). reflexivity.
Qed.

(** C7. An identifier that the driver does not take for a native identifier
    makes [to_object_id] raise the HTTP exception 400, "Invalid ID format": a
    client error and not a server error. The requests that decode the
    identifier ([get_activity], [delete_activity], and [update_activity] with
    a field to set) are rejected with it, and the store is left as it was. *)
Theorem to_object_id_invalid (oid : string) :
  ObjectId oid = None ->
  to_object_id oid = HTTPException 400 "Invalid ID format"
  /\ is_client_error (status_of (to_object_id oid)) = true
  /\ is_server_error (status_of (to_object_id oid)) = false
  /\ (forall limit st, get_activity limit st oid = HTTPException 400 "Invalid ID format")
  /\ (forall st, delete_activity st oid = (st, HTTPException 400 "Invalid ID format"))
  /\ (forall now st payload, model_dump_exclude_none payload <> [] ->
        update_activity now st oid payload
        = (st, HTTPException 400 "Invalid ID format")).
Proof.
  intros H.
  assert (E : to_object_id oid = HTTPException 400 "Invalid ID format")
    by (unfold to_object_id; rewrite H; reflexivity).
  split; [exact E|]. rewrite E. split; [reflexivity|]. split; [reflexivity|].
  split; [|split].
  - intros limit st. unfold get_activity. rewrite E. reflexivity.
  - intros st. unfold delete_activity. rewrite E. reflexivity.
  - intros now st payload Hne. unfold update_activity.
    destruct (model_dump_exclude_none payload); [contradiction|].
    rewrite E. reflexivity.
Qed.

(** ** Partial update *)

(** C8. A partial update whose payload sets no field succeeds with
    [updated = false], raises nothing, and leaves the store as it was (no
    record is written, [updated_at] included), whatever the identifier. *)
Theorem update_activity_no_fields now st activity_id payload :
  model_dump_exclude_none payload = [] ->
  update_activity now st activity_id payload = (st, Return false).
Proof. intros H. unfold update_activity. rewrite H. reflexivity. Qed.

(** ** Months that the date constructor refuses *)

Lemma resolve_month_given now m : m <> 0%Z -> resolve_month now (Some m) = m.
Proof.
  intros H. unfold resolve_month, int_or.
  destruct (Z.eqb_spec m 0); [contradiction|reflexivity].
Qed.

Lemma truthy_int_given m : m <> 0%Z -> truthy_int (Some m) = true.
Proof.
  intros H. unfold truthy_int. destruct (Z.eqb_spec m 0); [contradiction|reflexivity].
Qed.

Lemma window_bad_month now m year :
  ~ (0 <= m <= 12)%Z -> window_or_raise now (Some m) year = Uncaught ValueError.
Proof.
  intros H. unfold window_or_raise.
  rewrite resolve_month_given by lia.
  rewrite month_window_bad_month by lia. reflexivity.
Qed.

(** The listing fails open: with a month that the date constructor refuses,
    the query is the one built without month and year. *)
Lemma build_query_bad_month now m year category search :
  ~ (0 <= m <= 12)%Z ->
  build_query now (Some m) year category search
  = build_query now None None category search.
Proof.
  intros H. unfold build_query, date_clause.
  rewrite resolve_month_given by lia.
  rewrite month_window_bad_month by lia.
  destruct (truthy_int (Some m) || truthy_int year); reflexivity.
Qed.

(** C1, where the code departs from it. With a month outside 0..12 the
    listing drops the date condition, but the dashboard and the recap (and
    the report export, which calls the recap) let the [ValueError] of the
    date constructor escape: the request ends as a server error. *)
Theorem bad_month_escapes now st m year :
  ~ (0 <= m <= 12)%Z ->
  dashboard now st (Some m) year = Uncaught ValueError
  /\ monthly_recap now st (Some m) year = Uncaught ValueError
  /\ (forall limit, export_pdf limit now st (Some m) year = Uncaught ValueError)
  /\ status_of (dashboard now st (Some m) year) = 500%Z
  /\ (forall limit category search,
        list_activities limit now st (Some m) year category search
        = list_activities limit now st None None category search).
Proof.
  intros H.
  assert (D : dashboard now st (Some m) year = Uncaught ValueError)
    by (unfold dashboard; rewrite window_bad_month by assumption; reflexivity).
  assert (R : monthly_recap now st (Some m) year = Uncaught ValueError)
    by (unfold monthly_recap; rewrite window_bad_month by assumption; reflexivity).
  split; [exact D|]. split; [exact R|]. split; [|split].
  - intros limit. unfold export_pdf. rewrite R. reflexivity.
  - rewrite D. reflexivity.
  - intros limit category search. unfold list_activities.
    rewrite build_query_bad_month by assumption. reflexivity.
Qed.

(** ** The free-text search *)

Lemma parse_plain p : plain p = true -> parse_pattern p = Some (literals p).
Proof.
  induction p as [|c p IH]; simpl; [reflexivity|].
  intros H. apply andb_prop in H as [Hc Hp].
  destruct (Ascii.eqb_spec c "."%char) as [->|_]; [discriminate Hc|].
  destruct (is_meta c); [discriminate Hc|]. rewrite (IH Hp). reflexivity.
Qed.

Lemma match_here_literals p : forall s,
  match_here true (literals p) s = true
  <-> exists mid post, s = mid +:+ post /\ lower mid = lower p.
Proof.
  induction p as [|c p IH]; intros s; simpl.
  - split; [intros _; exists EmptyString, s; split; reflexivity|reflexivity].
  - destruct s as [|x s].
    + split; [discriminate|]. intros (mid & post & Hs & Hl).
      destruct mid; simpl in *; discriminate.
    + unfold char_eqb. split.
      * intros H. apply andb_prop in H as [Hc Hr].
        apply Ascii.eqb_eq in Hc. apply IH in Hr as (mid & post & -> & Hl).
        exists (String x mid), post. split; [reflexivity|]. simpl. congruence.
      * intros (mid & post & Hs & Hl). destruct mid as [|y mid]; [discriminate|].
        simpl in Hs, Hl. injection Hs as -> ->. injection Hl as Hc Hl.
        apply andb_true_intro. split; [apply Ascii.eqb_eq; congruence|].
        apply IH. eauto.
Qed.

Lemma search_from_literals p : forall s,
  search_from true (literals p) s = true <-> occurs_ci p s.
Proof.
  intros s. unfold occurs_ci. induction s as [|x s IH].
  - simpl. rewrite orb_false_r, match_here_literals. split.
    + intros (mid & post & Hs & Hl). exists EmptyString, mid, post. auto.
    + intros (pre & mid & post & Hs & Hl). destruct pre; [|discriminate].
      exists mid, post. auto.
  - cbn [search_from]. rewrite orb_true_iff, match_here_literals, IH. split.
    + intros [(mid & post & Hs & Hl)|(pre & mid & post & Hs & Hl)].
      * exists EmptyString, mid, post. auto.
      * exists (String x pre), mid, post. split; [rewrite Hs; reflexivity|exact Hl].
    + intros (pre & mid & post & Hs & Hl). destruct pre as [|y pre].
      * left. exists mid, post. auto.
      * right. simpl in Hs. injection Hs as -> ->. exists pre, mid, post. auto.
Qed.

Lemma regex_plain p field :
  plain p = true ->
  exists b, cond_holds (CRegex p "i") field = Some b
    /\ (b = true <-> exists s, field = Some (VStr s) /\ occurs_ci p s).
Proof.
  intros Hp. simpl.
  assert (Hno : forall b : bool, (forall s, field <> Some (VStr s)) ->
     exists b', Some false = Some b'
       /\ (b' = true <-> exists s, field = Some (VStr s) /\ occurs_ci p s)).
  { intros _ Hne. exists false. split; [reflexivity|]. split; [discriminate|].
    intros (s & Hs & _). exfalso. eapply Hne, Hs. }
  destruct field as [v|]; [|apply (Hno true); congruence].
  destruct v; try (apply (Hno true); congruence).
  unfold regex_search. rewrite (parse_plain _ Hp). simpl.
  eexists. split; [reflexivity|]. rewrite search_from_literals. split.
  - intros H. eauto.
  - intros (s' & [= <-] & H). exact H.
Qed.

Lemma build_query_search now search :
  search <> EmptyString ->
  build_query now None None None (Some search) = [search_clause search].
Proof.
  intros H. unfold build_query, date_clause. simpl.
  destruct (String.eqb_spec search EmptyString); [contradiction|reflexivity].
Qed.

Lemma any_holds_cons (d : dict) k c rest :
  any_holds d ((k, c) :: rest)
  = match cond_holds c (d !! k) with
    | Some true => Some true
    | Some false => any_holds d rest
    | None => None
    end.
Proof. simpl. destruct (cond_holds c (d !! k)) as [[|]|]; reflexivity. Qed.

(** C4, as amended. For every search text that is not empty and holds none
    of the characters that are special in a pattern, the filter built from
    it matches a record exactly when the text occurs, letter case apart, as
    a substring of the text in at least one of the fields name, result and
    notes. (A text with such a character is searched for as a pattern.) *)
Theorem search_filter_plain now (d : dict) search :
  search <> EmptyString -> plain search = true ->
  exists b, matches d (build_query now None None None (Some search)) = Some b
    /\ (b = true <->
        exists k s, k ∈ ["name"; "result"; "notes"]
          /\ d !! k = Some (VStr s) /\ occurs_ci search s).
Proof.
  intros Hne Hp. rewrite (build_query_search _ _ Hne).
  destruct (regex_plain search (d !! "name") Hp) as (b1 & E1 & H1).
  destruct (regex_plain search (d !! "result") Hp) as (b2 & E2 & H2).
  destruct (regex_plain search (d !! "notes") Hp) as (b3 & E3 & H3).
  exists (b1 || b2 || b3). split.
  - assert (Ha : any_holds d [("name", CRegex search "i");
                               ("result", CRegex search "i");
                               ("notes", CRegex search "i")]
                 = Some (b1 || b2 || b3)).
    { rewrite !any_holds_cons, E1, E2, E3.
      destruct b1, b2, b3; reflexivity. }
    unfold matches, clause_holds, search_clause. rewrite Ha. simpl.
    destruct (b1 || b2 || b3); reflexivity.
  - rewrite !orb_true_iff, H1, H2, H3. split.
    + intros [[(s & Hs & Ho)|(s & Hs & Ho)]|(s & Hs & Ho)];
        [exists "name", s|exists "result", s|exists "notes", s];
        (split; [|split; assumption]); repeat constructor.
    + intros (k & s & Hk & Hs & Ho).
      apply elem_of_cons in Hk as [->|Hk]; [left; left; eauto|].
      apply elem_of_cons in Hk as [->|Hk]; [left; right; eauto|].
      apply elem_of_cons in Hk as [->|Hk]; [right; eauto|].
      inversion Hk.
Qed.

(** ** Windows and queries without a pattern *)

Lemma find_window st lo hi :
  find st [Field "date" (CRange lo hi)] = Some (in_window st lo hi).
Proof.
  unfold find, in_window. induction (activity st) as [|l docs IH]; [reflexivity|].
  cbn [find_in]. rewrite IH, filter_cons.
  assert (E : match objects st !! l with
              | Some d => matches d [Field "date" (CRange lo hi)]
              | None => Some false
              end = Some (in_range (objects st) lo hi l)).
  { unfold in_range. destruct (objects st !! l) as [d|]; [|reflexivity].
    simpl. destruct (d !! "date" ≫= date_of_value); simpl; [|reflexivity].
    destruct (date_leb lo d0 && date_ltb d0 hi); reflexivity. }
  rewrite E. simpl.
  destruct (in_range (objects st) lo hi l); destruct (decide _);
    try reflexivity; congruence.
Qed.

Lemma find_all st :
  (forall l, l ∈ activity st -> is_Some (objects st !! l)) ->
  find st [] = Some (activity st).
Proof.
  unfold find. induction (activity st) as [|l docs IH]; intros H; [reflexivity|].
  cbn [find_in]. destruct (H l) as [d ->]; [left|]. simpl.
  rewrite IH; [reflexivity|]. intros; apply H; right; assumption.
Qed.

(** ** Grouping and counting *)

Lemma total_app g1 g2 : total (g1 ++ g2) = (total g1 + total g2)%nat.
Proof. induction g1 as [|kv g1 IH]; simpl; [reflexivity|]. rewrite IH. lia. Qed.

Lemma sum_values_from (g : list (value * nat)) : forall a,
  foldl (fun acc kv => acc + kv.2)%nat a g = (a + total g)%nat.
Proof.
  induction g as [|[k c] g IH]; intros a; simpl; [lia|]. rewrite IH. simpl. lia.
Qed.

Lemma sum_values_sum g : sum_values g = total g.
Proof. unfold sum_values. rewrite sum_values_from. reflexivity. Qed.

Lemma dict_set_absent {V} k (v : V) d :
  k ∉ d.*1 -> dict_set k v d = (d ++ [(k, v)])%list.
Proof.
  induction d as [|[k' v'] d IH]; csimpl; intros H; [reflexivity|].
  apply not_elem_of_cons in H as [Hne Hd].
  destruct (decide (k' = k)); [congruence|]. rewrite IH by assumption.
  reflexivity.
Qed.

Lemma dict_set_keys {V} k (v : V) d :
  (dict_set k v d).*1 = if decide (k ∈ d.*1) then d.*1 else (d.*1 ++ [k])%list.
Proof.
  induction d as [|[k' v'] d IH]; csimpl.
  - destruct (decide (k ∈ [])) as [H|_]; [inversion H|reflexivity].
  - destruct (decide (k' = k)) as [->|Hne]; csimpl.
    + destruct (decide (k ∈ k :: d.*1)) as [_|H]; [reflexivity|].
      exfalso. apply H. left.
    + rewrite IH. destruct (decide (k ∈ d.*1)) as [Hin|Hout];
        destruct (decide (k ∈ k' :: d.*1)) as [Hin'|Hout']; try reflexivity.
      * exfalso. apply Hout'. right. assumption.
      * apply elem_of_cons in Hin' as [->|Hin']; [congruence|contradiction].
Qed.

Lemma incr_sum k g : total (incr k g) = S (total g).
Proof.
  unfold incr. induction g as [|[k' c] g IH]; csimpl; [reflexivity|].
  destruct (decide (k' = k)); csimpl; [reflexivity|]. rewrite IH. lia.
Qed.

Lemma incr_keys k g x : x ∈ (incr k g).*1 -> x = k \/ x ∈ g.*1.
Proof.
  unfold incr. rewrite dict_set_keys. destruct (decide (k ∈ g.*1)); [auto|].
  rewrite elem_of_app, list_elem_of_singleton. intros [?|?]; auto.
Qed.

Lemma incr_NoDup k g : NoDup g.*1 -> NoDup (incr k g).*1.
Proof.
  intros H. unfold incr. rewrite dict_set_keys.
  destruct (decide (k ∈ g.*1)) as [|Hout]; [assumption|].
  apply NoDup_app. split; [assumption|]. split; [|apply NoDup_singleton].
  intros x Hx Hk. apply list_elem_of_singleton in Hk. congruence.
Qed.

Lemma foldl_incr_facts keys : forall g,
  NoDup g.*1 ->
  let g' := foldl (fun groups key => incr key groups) g keys in
  total g' = (total g + length keys)%nat
  /\ NoDup g'.*1
  /\ forall x, x ∈ g'.*1 -> x ∈ g.*1 \/ x ∈ keys.
Proof.
  induction keys as [|k keys IH]; intros g Hg; csimpl.
  - split; [lia|]. split; [assumption|]. auto.
  - destruct (IH (incr k g) (incr_NoDup _ _ Hg)) as (Hs & Hn & Hk).
    split; [rewrite Hs, incr_sum; lia|]. split; [exact Hn|].
    intros x Hx. apply Hk in Hx as [Hx|Hx]; [|right; right; assumption].
    apply incr_keys in Hx as [->|Hx]; [right; left|left; assumption].
Qed.

Lemma group_count_keys (h : heap) docs k :
  group_count h docs k
  = foldl (fun groups key => incr key groups) []
      ((fun l => field_or_null (default ∅ (h !! l)) k) <$> docs).
Proof.
  unfold group_count. generalize (@nil (value * nat)).
  induction docs as [|l docs IH]; intros g; simpl; [reflexivity|apply IH].
Qed.

(** The groups of a window: their counts add up to the number of records,
    no key comes twice, and every key is the category of a record. *)
Lemma group_count_facts (h : heap) docs :
  let g := group_count h docs "category" in
  total g = length docs /\ NoDup g.*1
  /\ forall x, x ∈ g.*1 -> exists l, l ∈ docs /\ category_of h l = x.
Proof.
  simpl. rewrite group_count_keys.
  destruct (foldl_incr_facts
              ((fun l => field_or_null (default ∅ (h !! l)) "category") <$> docs)
              [] (NoDup_nil_2)) as (Hs & Hn & Hk).
  split; [rewrite Hs, length_fmap; reflexivity|]. split; [exact Hn|].
  intros x Hx. apply Hk in Hx as [Hx|Hx]; [inversion Hx|].
  apply list_elem_of_fmap in Hx as (l & -> & Hl). eauto.
Qed.

(** Relabelling the groups keeps their counts when no two keys get the same
    label. *)
Lemma by_label_from (h : heap) g : forall acc,
  NoDup (label h <$> g.*1) ->
  (forall x, x ∈ g.*1 -> label h x ∉ acc.*1) ->
  total (foldl (fun acc item => dict_set (label h item.1) item.2 acc) acc g)
  = (total acc + total g)%nat.
Proof.
  induction g as [|[k c] g IH]; intros acc Hn Hacc; csimpl; [lia|].
  csimpl in Hn. apply NoDup_cons in Hn as [Hk Hn].
  rewrite dict_set_absent by (apply Hacc; left).
  rewrite IH; [| assumption |].
  - rewrite total_app. csimpl. lia.
  - intros x Hx. rewrite fmap_app, elem_of_app. csimpl.
    rewrite list_elem_of_singleton. intros [Hin|Heq].
    + eapply Hacc; [right; exact Hx|exact Hin].
    + apply Hk. rewrite <- Heq. apply list_elem_of_fmap_2. exact Hx.
Qed.

Lemma by_label_sum (h : heap) g :
  NoDup g.*1 ->
  (forall x y, x ∈ g.*1 -> y ∈ g.*1 -> label h x = label h y -> x = y) ->
  sum_values (by_label h g) = total g.
Proof.
  intros Hn Hinj. rewrite sum_values_sum. unfold by_label.
  rewrite by_label_from; [reflexivity| |].
  - apply NoDup_fmap_2_strong; assumption.
  - intros x _ Hx. inversion Hx.
Qed.

Lemma label_text (h : heap) c :
  label h (VStr c) = VStr (if String.eqb c EmptyString then "unknown" else c).
Proof. unfold label. simpl. destruct (String.eqb c EmptyString); reflexivity. Qed.

Lemma label_text_inj (h : heap) a b :
  label h (VStr a) = label h (VStr b) ->
  a = b \/ (a = EmptyString /\ b = "unknown") \/ (a = "unknown" /\ b = EmptyString).
Proof.
  rewrite !label_text.
  destruct (String.eqb_spec a EmptyString) as [->|Ha],
    (String.eqb_spec b EmptyString) as [->|Hb]; intros E;
    inversion E; subst; auto.
Qed.

(** C6, as amended. For every window whose records all carry a text
    category, the empty category and the category "unknown" not occurring
    together in it, the dashboard returns, its total count is the number of
    records in the window (counted by the store, apart from the grouping),
    and that count equals the sum of the counts it reports per category. *)
Theorem dashboard_total_count now st month year lo hi :
  month_window (resolve_year now year) (resolve_month now month) = Some (lo, hi) ->
  (forall l, l ∈ in_window st lo hi ->
     exists c, category_of (objects st) l = VStr c) ->
  ~ ((exists l, l ∈ in_window st lo hi
        /\ category_of (objects st) l = VStr EmptyString)
     /\ (exists l, l ∈ in_window st lo hi
        /\ category_of (objects st) l = VStr "unknown")) ->
  exists r, dashboard now st month year = Return r
    /\ total_activities r = length (in_window st lo hi)
    /\ total_activities r = sum_values (per_category r).
Proof.
  intros Hw Hcat Hno.
  unfold dashboard, window_or_raise, count_documents. rewrite Hw. simpl.
  rewrite !find_window. simpl. eexists. split; [reflexivity|]. simpl.
  split; [reflexivity|].
  destruct (group_count_facts (objects st) (in_window st lo hi)) as (Hs & Hn & Hk).
  rewrite by_label_sum; [symmetry; exact Hs|exact Hn|].
  intros x y Hx Hy Hl.
  apply Hk in Hx as (lx & Hlx & Ex). apply Hk in Hy as (ly & Hly & Ey).
  destruct (Hcat _ Hlx) as [a Ha]. destruct (Hcat _ Hly) as [b Hb].
  rewrite <- Ex, <- Ey, Ha, Hb in *.
  apply label_text_inj in Hl as [->|[[-> ->]|[-> ->]]]; [reflexivity| |];
    exfalso; apply Hno; split; eauto.
Qed.

(** ** Listing without a search text *)

Lemma serialize_all_total n docs : forall h,
  (forall l, l ∈ docs -> nested n h l) ->
  exists h', serialize_all n h docs = Some h' /\ hprog h h'.
Proof.
  induction docs as [|l docs IH]; intros h Hn; simpl.
  - exists h. split; [reflexivity|apply hprog_refl].
  - destruct (serialize_doc_total n h l) as [h1 E]; [apply Hn; left|].
    rewrite E. simpl.
    destruct (serialize_doc_spec _ _ _ _ E) as (Hp & _).
    destruct (IH h1) as (h' & E' & Hp').
    { intros x Hx. eapply nested_hprog; [|exact Hp]. apply Hn. right. exact Hx. }
    exists h'. split; [exact E'|]. eapply hprog_trans; eassumption.
Qed.

Lemma find_in_elem (h : heap) q docs : forall found,
  find_in h docs q = Some found -> forall l, l ∈ found -> l ∈ docs.
Proof.
  induction docs as [|x docs IH]; intros found; simpl.
  - intros [= <-] l Hl. exact Hl.
  - destruct (match h !! x with Some d => matches d q | None => Some false end)
      as [b|]; simpl; [|discriminate].
    destruct (find_in h docs q) as [rest|]; simpl; [|discriminate].
    intros [= <-] l Hl. destruct b.
    + apply elem_of_cons in Hl as [->|Hl]; [left|right; eapply IH; eauto].
    + right. eapply IH; eauto.
Qed.

Lemma find_in_total (h : heap) q docs :
  (forall d : dict, exists b, matches d q = Some b) ->
  exists found, find_in h docs q = Some found.
Proof.
  intros Hq. induction docs as [|x docs [rest IH]]; simpl; [eauto|].
  rewrite IH.
  destruct (h !! x) as [d|]; [destruct (Hq d) as [b ->]|]; simpl; eauto.
Qed.

Lemma build_query_dates now month year :
  build_query now month year None None = date_clause now month year.
Proof. unfold build_query. simpl. apply app_nil_r. Qed.

Lemma matches_date_clause now month year (d : dict) :
  exists b, matches d (date_clause now month year) = Some b.
Proof.
  unfold date_clause. destruct (truthy_int month || truthy_int year); [|simpl; eauto].
  destruct (month_window _ _) as [[lo hi]|]; [|simpl; eauto].
  simpl. destruct (d !! "date" ≫= date_of_value); simpl; [|eauto].
  destruct (date_leb lo d0 && date_ltb d0 hi); eauto.
Qed.

(** Without category and search text the listing returns whenever the
    stored records are nested within the recursion limit. *)
Lemma list_activities_total limit now st month year :
  (forall l, l ∈ activity st -> nested limit (objects st) l) ->
  exists h activities,
    find st (date_clause now month year) = Some activities
    /\ serialize_all limit (objects st) activities = Some h
    /\ list_activities limit now st month year None None = Return (h, activities).
Proof.
  intros Hn. unfold list_activities, get_documents.
  rewrite build_query_dates.
  destruct (find_in_total (objects st) (date_clause now month year) (activity st)
              (matches_date_clause now month year)) as [found E].
  unfold find. rewrite E. simpl.
  destruct (serialize_all_total limit found (objects st)) as (h & Eh & _).
  { intros l Hl. apply Hn. eapply find_in_elem; eauto. }
  rewrite Eh. eauto.
Qed.

(** ** The CSV text *)

Lemma count_char_app c a b :
  count_char c (a +:+ b) = (count_char c a + count_char c b)%nat.
Proof. induction a as [|x a IH]; simpl; [reflexivity|]. rewrite IH. lia. Qed.

Lemma mem_char_count c s : mem_char c s = false -> count_char c s = O.
Proof.
  induction s as [|x s IH]; simpl; [reflexivity|].
  intros H. apply orb_false_elim in H as [-> Hs]. rewrite IH by assumption.
  reflexivity.
Qed.

Lemma count_double_quotes c s :
  c <> DQUOTE -> count_char c (double_quotes s) = count_char c s.
Proof.
  intros Hc. induction s as [|x s IH]; simpl; [reflexivity|].
  destruct (Ascii.eqb_spec x DQUOTE) as [->|Hx]; simpl; rewrite IH; [|reflexivity].
  destruct (Ascii.eqb_spec c DQUOTE); [contradiction|reflexivity].
Qed.

Lemma count_csv_field c s :
  c <> DQUOTE -> count_char c (csv_field s) = count_char c s.
Proof.
  intros Hc. unfold csv_field. destruct (needs_quote s); [|reflexivity].
  simpl. rewrite count_char_app, count_double_quotes by assumption. simpl.
  destruct (Ascii.eqb_spec c DQUOTE); [contradiction|]. simpl. lia.
Qed.

Lemma count_concat c sep l :
  count_char c sep = O -> count_char c (String.concat sep l) = count_all c l.
Proof.
  intros Hs. induction l as [|x [|y l] IH]; simpl in *; [reflexivity|lia|].
  rewrite !count_char_app, Hs, IH. lia.
Qed.

Lemma writerow_record h a : writerow (csv_record h a) = csv_line h a +:+ CRLF.
Proof.
  unfold writerow, csv_line, csv_record. cbn [map CSV_COLUMNS].
  destruct (csv_text h (get h a "date")); reflexivity.
Qed.

Lemma count_csv_line c h a :
  c <> DQUOTE -> c <> ","%char ->
  (forall k, k ∈ CSV_COLUMNS -> mem_char c (csv_text h (get h a k)) = false) ->
  count_char c (csv_line h a) = O.
Proof.
  intros Hq Hc Hf. unfold csv_line, csv_record.
  rewrite count_concat.
  - induction CSV_COLUMNS as [|k ks IH]; simpl; [reflexivity|].
    rewrite count_csv_field by assumption.
    rewrite mem_char_count by (apply Hf; left).
    apply IH. intros k' Hk'. apply Hf. right. exact Hk'.
  - simpl. destruct (Ascii.eqb_spec c ","%char); [contradiction|reflexivity].
Qed.

Lemma to_csv_rows h activities :
  to_csv h activities
  = ("Tanggal,Nama,Kategori,Durasi,Hasil,Catatan,Pemasukan,Pengeluaran,Kategori Keuangan"
     +:+ CRLF)
    +:+ String.concat EmptyString
          (map (fun a => csv_line h a +:+ CRLF) activities).
Proof.
  unfold to_csv.
  assert (E : forall x l, String.concat EmptyString (x :: l)
                          = x +:+ String.concat EmptyString l).
  { intros x [|y l]; [|reflexivity]. cbn [String.concat].
    induction x as [|c x IH]; [reflexivity|].
    change (String c x = String c (x +:+ EmptyString)). f_equal. exact IH. }
  assert (M : map (fun a => writerow (csv_record h a)) activities
              = map (fun a => csv_line h a +:+ CRLF) activities).
  { clear E. induction activities as [|a rest IH]; [reflexivity|].
    cbn [map]. rewrite writerow_record, IH. reflexivity. }
  rewrite E, M. reflexivity.
Qed.

Lemma count_rows c h activities :
  c = LF \/ c = CR ->
  (forall a k, a ∈ activities -> k ∈ CSV_COLUMNS ->
     mem_char c (csv_text h (get h a k)) = false) ->
  count_char c (to_csv h activities) = S (length activities).
Proof.
  intros Hc Hf. rewrite to_csv_rows, !count_char_app.
  assert (Hq : c <> DQUOTE) by (destruct Hc; subst; discriminate).
  assert (Hm : c <> ","%char) by (destruct Hc; subst; discriminate).
  assert (H1 : count_char c CRLF = 1%nat) by (destruct Hc; subst; reflexivity).
  assert (H0 : count_char c "Tanggal,Nama,Kategori,Durasi,Hasil,Catatan,Pemasukan,Pengeluaran,Kategori Keuangan" = O)
    by (destruct Hc; subst; reflexivity).
  rewrite H0, H1, count_concat by reflexivity. simpl. f_equal.
  clear H0.
  induction activities as [|a rest IH]; simpl; [reflexivity|].
  rewrite count_char_app, H1, count_csv_line; try assumption.
  - rewrite IH; [reflexivity|]. intros a' k Ha'. apply Hf. right. exact Ha'.
  - intros k Hk. apply Hf; [left|exact Hk].
Qed.

(** C9, as amended. For every stored collection nested within the recursion
    limit the CSV export returns; for the N serialized records of the
    listing its text is the fixed header of nine columns followed by one row
    per record in the order of the list, each row ended by CR LF, a missing
    or null value giving an empty field. The text has exactly N+1 line
    breaks (N+1 lines) when no field holds a line break; a field that holds
    one is quoted, and its line break stays in the text. *)
Theorem export_csv_rows limit now st month year :
  (forall l, l ∈ activity st -> nested limit (objects st) l) ->
  exists h activities name,
    list_activities limit now st month year None None = Return (h, activities)
    /\ export_csv limit now st month year
       = Return {| content := to_csv h activities; filename := name |}
    /\ to_csv h activities
       = ("Tanggal,Nama,Kategori,Durasi,Hasil,Catatan,Pemasukan,Pengeluaran,Kategori Keuangan"
          +:+ CRLF)
         +:+ String.concat EmptyString
               (map (fun a => csv_line h a +:+ CRLF) activities)
    /\ (forall a k, get h a k = None \/ get h a k = Some VNone ->
          csv_text h (get h a k) = EmptyString)
    /\ ((forall a k, a ∈ activities -> k ∈ CSV_COLUMNS ->
           mem_char LF (csv_text h (get h a k)) = false
           /\ mem_char CR (csv_text h (get h a k)) = false) ->
        count_char LF (to_csv h activities) = S (length activities)
        /\ count_char CR (to_csv h activities) = S (length activities)).
Proof.
  intros Hn.
  destruct (list_activities_total limit now st month year Hn)
    as (h & activities & _ & _ & E).
  exists h, activities. eexists. split; [exact E|]. split; [|split; [|split]].
  - unfold export_csv. rewrite E. reflexivity.
  - apply to_csv_rows.
  - intros a k [-> | ->]; reflexivity.
  - intros Hf. split; apply count_rows; auto; intros a k Ha Hk;
      apply (Hf a k Ha Hk).
Qed.

(** ** The report export without month and year *)

Lemma nested_lookup n (h : heap) l : nested n h l -> is_Some (h !! l).
Proof. destruct n; simpl; [intros []|]. intros (d & -> & _). eauto. Qed.

Lemma build_query_nothing now : build_query now None None None None = [].
Proof. reflexivity. Qed.

(** C10. With month and year both absent, the report export summarizes the
    current UTC month in its header (the recap takes both from the clock
    and aggregates over that month's window), while the listing it prints
    has no date condition: the detail lines are those of every stored
    activity, whatever its date. *)
Theorem export_pdf_default_month limit now st lo hi :
  (forall l, l ∈ activity st -> nested limit (objects st) l) ->
  month_window (date_year (dt_date now)) (date_month (dt_date now)) = Some (lo, hi) ->
  exists recap h name,
    monthly_recap now st None None = Return recap
    /\ recap_month recap = date_month (dt_date now)
    /\ recap_year recap = date_year (dt_date now)
    /\ recap_categories recap
       = by_label (objects st)
           (group_count (objects st) (in_window st lo hi) "category")
    /\ recap_income recap = group_sum (objects st) (in_window st lo hi) "income"
    /\ recap_expense recap = group_sum (objects st) (in_window st lo hi) "expense"
    /\ build_query now None None None None = []
    /\ list_activities limit now st None None None None = Return (h, activity st)
    /\ export_pdf limit now st None None
       = Return {| content := String.concat (String LF EmptyString)
                                (report_lines recap h (activity st));
                   filename := name |}
    /\ length (report_lines recap h (activity st)) = (5 + length (activity st))%nat.
Proof.
  intros Hn Hw.
  assert (R : exists recap, monthly_recap now st None None = Return recap
    /\ recap_month recap = date_month (dt_date now)
    /\ recap_year recap = date_year (dt_date now)
    /\ recap_categories recap
       = by_label (objects st)
           (group_count (objects st) (in_window st lo hi) "category")
    /\ recap_income recap = group_sum (objects st) (in_window st lo hi) "income"
    /\ recap_expense recap = group_sum (objects st) (in_window st lo hi) "expense").
  { unfold monthly_recap, window_or_raise, resolve_year, resolve_month.
    cbn [int_or]. rewrite Hw. simpl. rewrite !find_window. simpl.
    eexists. split; [reflexivity|]. repeat split. }
  destruct R as (recap & ER & Hm & Hy & Hc & Hi & He).
  destruct (list_activities_total limit now st None None Hn)
    as (h & activities & Ef & _ & EL).
  change (date_clause now None None) with (@nil clause) in Ef.
  rewrite find_all in Ef by (intros l Hl; eapply nested_lookup, Hn, Hl).
  injection Ef as <-.
  exists recap, h. eexists.
  split; [exact ER|]. do 5 (split; [assumption|]).
  split; [reflexivity|]. split; [exact EL|]. split.
  - unfold export_pdf. rewrite ER. simpl. rewrite EL. reflexivity.
  - unfold report_lines. rewrite length_app, length_map. reflexivity.
Qed.

(** * Further facts about the handlers *)

(** ** What a month window holds *)

Lemma month_window_inv (y m : Z) lo hi :
  month_window y m = Some (lo, hi) ->
  lo = first_day y m /\ hi = first_day_of_next y m /\ (1 <= m <= 12)%Z
  /\ (MINYEAR <= y)%Z.
Proof.
  unfold month_window, mk_datetime, mk_date, first_day, first_day_of_next.
  destruct (check_date_fields y m 1) eqn:E; simpl; [|discriminate].
  assert (Hm : (1 <= m <= 12)%Z /\ (MINYEAR <= y)%Z).
  { unfold check_date_fields in E.
    repeat (apply andb_prop in E as [E ?]).
    repeat match goal with H : (_ <=? _)%Z = true |- _ => apply Z.leb_le in H end.
    lia. }
  destruct (m =? 12)%Z.
  - destruct (check_date_fields (y + 1) 1 1); simpl; [|discriminate].
    intros [= <- <-]. auto.
  - destruct (check_date_fields y (m + 1) 1); simpl; [|discriminate].
    intros [= <- <-]. auto.
Qed.

(** X13. The window of a month holds exactly the dates of that month: a
    date lies from the start up to, not including, the end exactly when it
    is a date of that year and month. *)
Theorem month_window_holds_the_month (y m : Z) lo hi (d : date) :
  month_window y m = Some (lo, hi) ->
  (1 <= date_month d <= 12)%Z -> (1 <= date_day d)%Z ->
  date_leb lo d && date_ltb d hi = true
  <-> date_year d = y /\ date_month d = m.
Proof.
  intros Hw Hdm Hdd.
  apply month_window_inv in Hw as (-> & -> & Hm & _).
  destruct d as [dy dm dd]. cbn [date_year date_month date_day] in *.
  unfold date_leb, date_ltb, date_eqb, first_day, first_day_of_next.
  destruct (Z.eqb_spec m 12) as [->|Hne];
    cbn [date_year date_month date_day];
    rewrite ?andb_true_iff, ?orb_true_iff, ?andb_true_iff, ?orb_true_iff,
      ?andb_true_iff, ?Z.ltb_lt, ?Z.eqb_eq; lia.
Qed.

(** ** What a listing returns *)

Lemma matches_build now month year category (d : dict) :
  matches d (build_query now month year category None)
  = Some (match listing_window now month year with
          | Some (lo, hi) =>
              match d !! "date" ≫= date_of_value with
              | Some x => date_leb lo x && date_ltb x hi
              | None => false
              end
          | None => true
          end
          && match asked category with
             | Some c => bool_decide (d !! "category" = Some (VStr c))
             | None => true
             end).
Proof.
  unfold build_query, date_clause, listing_window, asked.
  destruct (truthy_int month || truthy_int year);
    [destruct (month_window _ _) as [[lo hi]|]|];
    destruct category as [c|]; simpl;
    try destruct (negb (String.eqb c EmptyString)); simpl;
    try destruct (d !! "date" ≫= date_of_value) as [x|]; simpl;
    try destruct (date_leb lo x && date_ltb x hi); simpl;
    try destruct (bool_decide (d !! "category" = Some (VStr c))); reflexivity.
Qed.

Lemma find_listed st now month year category :
  find st (build_query now month year category None)
  = Some (listed st now month year category).
Proof.
  unfold find, listed. induction (activity st) as [|l docs IH]; [reflexivity|].
  cbn [find_in]. rewrite IH, filter_cons.
  assert (E : match objects st !! l with
              | Some d => matches d (build_query now month year category None)
              | None => Some false
              end
              = Some (selected (objects st) (listing_window now month year)
                        (asked category) l)).
  { unfold selected, in_range.
    destruct (objects st !! l) as [d|]; [|reflexivity].
    rewrite matches_build. destruct (listing_window now month year) as [[lo hi]|];
      reflexivity. }
  rewrite E. simpl.
  destruct (selected (objects st) (listing_window now month year)
              (asked category) l); destruct (decide _);
    try reflexivity; congruence.
Qed.

Lemma serialize_all_spec n docs : forall h h',
  serialize_all n h docs = Some h' ->
  hprog h h' /\ forall l, l ∈ docs -> done n h' l.
Proof.
  induction docs as [|x docs IH]; intros h h'; simpl.
  - intros [= <-]. split; [apply hprog_refl|]. intros l Hl. inversion Hl.
  - destruct (serialize_doc n h x) as [h1|] eqn:E; simpl; [|discriminate].
    intros Hrest. apply IH in Hrest as [Hp Hd].
    destruct (serialize_doc_spec _ _ _ _ E) as (Hp1 & Hd1 & _).
    split; [eapply hprog_trans; eassumption|].
    intros l Hl. apply elem_of_cons in Hl as [->|Hl]; [|auto].
    eapply done_hprog; eassumption.
Qed.

Lemma listed_stored st now month year category l :
  l ∈ listed st now month year category -> l ∈ activity st.
Proof. unfold listed. rewrite list_elem_of_filter. intros [_ H]. exact H. Qed.

(** X1. Without a search text, the listing returns exactly the stored
    records whose date lies in the window asked for (when month or year is
    given and the window can be built) and whose category is the text asked
    for (when one is given), in stored order; and every record it returns is
    in wire form: no native identifier, no date object. *)
Theorem list_activities_selects limit now st month year category :
  (forall l, l ∈ activity st -> nested limit (objects st) l) ->
  exists h,
    list_activities limit now st month year category None
    = Return (h, listed st now month year category)
    /\ forall l, l ∈ listed st now month year category -> done limit h l.
Proof.
  intros Hn. unfold list_activities, get_documents.
  rewrite find_listed. simpl.
  destruct (serialize_all_total limit (listed st now month year category)
              (objects st)) as (h & E & _).
  { intros l Hl. apply Hn. eapply listed_stored, Hl. }
  rewrite E. exists h. split; [reflexivity|].
  apply (serialize_all_spec _ _ _ _ E).
Qed.

(** ** Requests about one record *)

Lemma find_with_oid st o :
  find st [Field "_id" (CEq (VObjectId o))] = Some (with_oid st o).
Proof.
  unfold find, with_oid. induction (activity st) as [|l docs IH]; [reflexivity|].
  cbn [find_in]. rewrite IH, filter_cons.
  assert (E : match objects st !! l with
              | Some d => matches d [Field "_id" (CEq (VObjectId o))]
              | None => Some false
              end = Some (has_oid (objects st) o l)).
  { unfold has_oid. destruct (objects st !! l) as [d|]; [|reflexivity].
    simpl. destruct (bool_decide (d !! "_id" = Some (VObjectId o))); reflexivity. }
  rewrite E. simpl.
  destruct (has_oid (objects st) o l); destruct (decide _);
    try reflexivity; congruence.
Qed.

Lemma with_oid_head st o l rest :
  with_oid st o = l :: rest ->
  exists d, objects st !! l = Some d /\ d !! "_id" = Some (VObjectId o).
Proof.
  intros H. assert (Hl : l ∈ with_oid st o) by (rewrite H; left).
  unfold with_oid in Hl. apply list_elem_of_filter in Hl as [Hl _].
  unfold has_oid in Hl. apply bool_decide_eq_true in Hl.
  destruct (objects st !! l) as [d|]; [|discriminate]. eauto.
Qed.

(** X2. A request for the record of a well-formed identifier that a stored
    record carries returns the first such record, serialized: its [id] is
    the identifier's text, its native identifier field is gone, and it is in
    wire form. *)
Theorem get_activity_found limit st activity_id o l rest :
  ObjectId activity_id = Some o -> with_oid st o = l :: rest ->
  nested limit (objects st) l ->
  exists h,
    get_activity limit st activity_id = Return (h, l)
    /\ get h l "id" = Some (VStr o) /\ get h l "_id" = None
    /\ done limit h l.
Proof.
  intros Ho Hw Hn. destruct (with_oid_head _ _ _ _ Hw) as (d & Hd & Hid).
  unfold get_activity, to_object_id, find_one. rewrite Ho. simpl.
  rewrite find_with_oid, Hw. simpl.
  assert (Hne : bool_decide (objects st !! l = Some ∅) = false).
  { apply bool_decide_eq_false. rewrite Hd. intros [= ->].
    rewrite lookup_empty in Hid. discriminate. }
  rewrite Hne. destruct (serialize_doc_total _ _ _ Hn) as [h E]. rewrite E.
  destruct (serialize_doc_spec _ _ _ _ E) as (_ & Hdone & Hser).
  specialize (Hser _ Hd). exists h. split; [reflexivity|].
  unfold get. rewrite Hser. simpl. split; [|split; [|exact Hdone]].
  - rewrite (serialized_id _ _ _ Hid eq_refl). reflexivity.
  - apply serialized_native_id. exists (VObjectId o). auto.
Qed.

(** X3. For a well-formed identifier that no stored record carries, the
    read answers 404, and update (with fields to set) and delete answer
    [false] and leave the store as it was. *)
Theorem unknown_identifier limit now st activity_id o payload :
  ObjectId activity_id = Some o -> with_oid st o = [] ->
  model_dump_exclude_none payload <> [] ->
  get_activity limit st activity_id = HTTPException 404 "Not found"
  /\ update_activity now st activity_id payload = (st, Return false)
  /\ delete_activity st activity_id = (st, Return false).
Proof.
  intros Ho Hw Hp. split; [|split].
  - unfold get_activity, to_object_id, find_one. rewrite Ho. simpl.
    rewrite find_with_oid, Hw. reflexivity.
  - unfold update_activity, to_object_id, update_one, find_one.
    destruct (model_dump_exclude_none payload); [contradiction|].
    rewrite Ho, find_with_oid, Hw. reflexivity.
  - unfold delete_activity, to_object_id, delete_one, find_one.
    rewrite Ho, find_with_oid, Hw. reflexivity.
Qed.

(** *** Partial update *)

Lemma set_fields_cons k v fields (d : dict) :
  set_fields ((k, v) :: fields) d = set_fields fields (<[k := v]> d).
Proof. reflexivity. Qed.

Lemma set_fields_other fields : forall (d : dict) k,
  k ∉ fields.*1 -> set_fields fields d !! k = d !! k.
Proof.
  induction fields as [|[k' v'] fields IH]; intros d k Hk; [reflexivity|].
  rewrite set_fields_cons. csimpl in Hk. apply not_elem_of_cons in Hk as [Hne Hk].
  rewrite IH by assumption. apply lookup_insert_ne. congruence.
Qed.

Lemma set_fields_given fields : forall (d : dict) k v,
  NoDup fields.*1 -> (k, v) ∈ fields -> set_fields fields d !! k = Some v.
Proof.
  induction fields as [|[k' v'] fields IH]; intros d k v Hn Hin; [inversion Hin|].
  rewrite set_fields_cons. csimpl in Hn. apply NoDup_cons in Hn as [Hk' Hn].
  apply elem_of_cons in Hin as [[= -> ->]|Hin].
  - rewrite set_fields_other by assumption. apply lookup_insert_eq.
  - apply IH; assumption.
Qed.

Lemma dump_field_keys {A} k (f : A -> value) x :
  (dump_field k f x).*1 `sublist_of` [k].
Proof. destruct x; simpl; [reflexivity|apply sublist_nil_l]. Qed.

Lemma model_dump_keys (p : ActivityUpdate) :
  (model_dump_exclude_none p).*1
  `sublist_of` ["date"; "name"; "category"; "duration"; "result"; "notes";
                "income"; "expense"; "finance_category"].
Proof.
  unfold model_dump_exclude_none. rewrite !fmap_app.
  repeat (apply (sublist_app _ [_]); [apply dump_field_keys|]).
  apply dump_field_keys.
Qed.

Lemma update_fields_NoDup (p : ActivityUpdate) now :
  NoDup ((model_dump_exclude_none p ++ [("updated_at", VDateTime now)])%list).*1.
Proof.
  rewrite fmap_app. eapply sublist_NoDup.
  - apply (bool_decide_unpack (NoDup
       ["date"; "name"; "category"; "duration"; "result"; "notes";
        "income"; "expense"; "finance_category"; "updated_at"])).
    vm_compute. exact I.
  - apply (sublist_app (model_dump_exclude_none p).*1
             ["date"; "name"; "category"; "duration"; "result"; "notes";
              "income"; "expense"; "finance_category"]
             ["updated_at"] ["updated_at"]);
      [apply model_dump_keys|reflexivity].
Qed.

Lemma model_dump_not_updated_at (p : ActivityUpdate) :
  "updated_at" ∉ (model_dump_exclude_none p).*1.
Proof.
  intros H. eapply elem_of_sublist in H; [|apply model_dump_keys].
  revert H. apply (bool_decide_unpack (_ ∉ _)). vm_compute. exact I.
Qed.

Lemma update_activity_with_fields now st activity_id payload :
  model_dump_exclude_none payload <> [] ->
  update_activity now st activity_id payload
  = match to_object_id activity_id with
    | Return oid =>
        match update_one st [Field "_id" (CEq (VObjectId oid))]
                (model_dump_exclude_none payload
                 ++ [("updated_at", VDateTime now)])%list with
        | Some (st', modified_count) => (st', Return (modified_count =? 1)%nat)
        | None => (st, Uncaught OperationFailure)
        end
    | HTTPException s d => (st, HTTPException s d)
    | Uncaught e => (st, Uncaught e)
    end.
Proof.
  intros Hp. unfold update_activity.
  destruct (model_dump_exclude_none payload); [contradiction|reflexivity].
Qed.

Lemma update_one_found st o l rest d fields :
  with_oid st o = l :: rest -> objects st !! l = Some d ->
  update_one st [Field "_id" (CEq (VObjectId o))] fields
  = Some (Store (<[l := set_fields fields d]> (objects st)) (activity st),
          if decide (set_fields fields d = d) then O else 1%nat).
Proof.
  intros Hw Hd. unfold update_one, find_one.
  rewrite find_with_oid, Hw. cbn -[set_fields]. rewrite Hd. reflexivity.
Qed.

(** X4. A partial update of a stored record changes that record only: the
    fields the payload gives take the new values, [updated_at] becomes the
    time of the request, every other field stays as it was (none is
    cleared), the other records and the collection are untouched, and
    [updated] tells whether the record changed. *)
Theorem update_activity_sets_fields now st activity_id payload o l rest d :
  ObjectId activity_id = Some o ->
  model_dump_exclude_none payload <> [] ->
  with_oid st o = l :: rest -> objects st !! l = Some d ->
  exists st' d' updated,
    update_activity now st activity_id payload = (st', Return updated)
    /\ activity st' = activity st
    /\ objects st' !! l = Some d'
    /\ (forall x, x <> l -> objects st' !! x = objects st !! x)
    /\ d' !! "updated_at" = Some (VDateTime now)
    /\ (forall k v, (k, v) ∈ model_dump_exclude_none payload -> d' !! k = Some v)
    /\ (forall k, k <> "updated_at" ->
          k ∉ (model_dump_exclude_none payload).*1 -> d' !! k = d !! k)
    /\ (updated = true <-> d' <> d).
Proof.
  intros Ho Hp Hw Hd.
  set (fields := (model_dump_exclude_none payload
                  ++ [("updated_at", VDateTime now)])%list).
  exists (Store (<[l := set_fields fields d]> (objects st)) (activity st)),
    (set_fields fields d), (bool_decide (set_fields fields d <> d)).
  split; [|split; [|split; [|split; [|split; [|split; [|split]]]]]].
  - rewrite (update_activity_with_fields _ _ _ _ Hp).
    unfold to_object_id. rewrite Ho.
    rewrite (update_one_found _ _ _ _ _ _ Hw Hd). fold fields.
    f_equal. f_equal.
    destruct (decide (set_fields fields d = d)) as [E|E].
    + rewrite bool_decide_eq_false_2 by (intros H; apply H, E). reflexivity.
    + rewrite bool_decide_eq_true_2 by assumption. reflexivity.
  - reflexivity.
  - apply lookup_insert_eq.
  - intros x Hx. simpl. apply lookup_insert_ne. congruence.
  - apply set_fields_given; [apply update_fields_NoDup|].
    apply elem_of_app. right. left.
  - intros k v Hkv. apply set_fields_given; [apply update_fields_NoDup|].
    apply elem_of_app. left. exact Hkv.
  - intros k Hk Hn. apply set_fields_other. unfold fields.
    rewrite fmap_app, elem_of_app. intros [H|H]; [contradiction|].
    apply list_elem_of_singleton in H. contradiction.
  - apply bool_decide_eq_true.
Qed.

(** *** Deletion *)

Lemma filter_remove_first (P : loc -> Prop) `{forall x, Decision (P x)}
    (docs : list loc) l rest :
  filter P docs = l :: rest -> filter P (remove_first l docs) = rest.
Proof.
  induction docs as [|x docs IH]; [discriminate|].
  rewrite filter_cons. destruct (decide (P x)) as [Hx|Hx].
  - intros [= -> <-]. simpl. destruct (decide (l = l)); [reflexivity|contradiction].
  - intros Hf. simpl. destruct (decide (x = l)) as [->|Hne].
    + exfalso. apply Hx.
      assert (Hl : l ∈ filter P docs) by (rewrite Hf; left).
      apply list_elem_of_filter in Hl as [Hl _]. exact Hl.
    + rewrite filter_cons. destruct (decide (P x)); [contradiction|].
      apply IH, Hf.
Qed.

Lemma remove_first_length (docs : list loc) l :
  l ∈ docs -> S (length (remove_first l docs)) = length docs.
Proof.
  induction docs as [|x docs IH]; intros Hl; [inversion Hl|].
  simpl. destruct (decide (x = l)) as [->|Hne]; [reflexivity|].
  simpl. f_equal. apply IH. apply elem_of_cons in Hl as [->|Hl];
    [contradiction|assumption].
Qed.

Lemma delete_activity_removes_aux st activity_id o l rest :
  ObjectId activity_id = Some o -> with_oid st o = l :: rest ->
  exists st',
    delete_activity st activity_id = (st', Return true)
    /\ with_oid st' o = rest.
Proof.
  intros Ho Hw.
  exists (Store (objects st) (remove_first l (activity st))). split.
  - unfold delete_activity, to_object_id, delete_one, find_one.
    rewrite Ho, find_with_oid, Hw. reflexivity.
  - unfold with_oid in *. simpl. apply filter_remove_first. exact Hw.
Qed.

(** X5. Deleting by a well-formed identifier that a stored record carries
    removes the first such record from the collection, and only it: the
    answer is [true], the collection is one record shorter, no record's
    content changes, and the records that still carry the identifier are
    the further ones. *)
Theorem delete_activity_removes st activity_id o l rest :
  ObjectId activity_id = Some o -> with_oid st o = l :: rest ->
  exists st',
    delete_activity st activity_id = (st', Return true)
    /\ objects st' = objects st
    /\ activity st' = remove_first l (activity st)
    /\ S (length (activity st')) = length (activity st)
    /\ with_oid st' o = rest.
Proof.
  intros Ho Hw.
  exists (Store (objects st) (remove_first l (activity st))).
  split; [|split; [reflexivity|split; [reflexivity|split]]].
  - unfold delete_activity, to_object_id, delete_one, find_one.
    rewrite Ho, find_with_oid, Hw. reflexivity.
  - simpl. apply remove_first_length.
    assert (Hl : l ∈ with_oid st o) by (rewrite Hw; left).
    unfold with_oid in Hl. apply list_elem_of_filter in Hl as [_ Hl]. exact Hl.
  - unfold with_oid in *. simpl. apply filter_remove_first. exact Hw.
Qed.

(** X6. After the deletion of the only record that carries an identifier, a
    read with that identifier answers 404. *)
Theorem get_after_delete limit st activity_id o l :
  ObjectId activity_id = Some o -> with_oid st o = [l] ->
  get_activity limit (delete_activity st activity_id).1 activity_id
  = HTTPException 404 "Not found".
Proof.
  intros Ho Hw.
  destruct (delete_activity_removes_aux st activity_id o l [] Ho Hw)
    as (st' & E & Hrest).
  rewrite E. simpl.
  unfold get_activity, to_object_id, find_one. rewrite Ho. simpl.
  rewrite find_with_oid, Hrest. reflexivity.
Qed.

(** ** The totals of the dashboard and the recap *)

Lemma num_field_missing (h : heap) k l :
  has_number h k l = false -> num_field (default ∅ (h !! l)) k = num_zero.
Proof.
  unfold has_number, num_field. destruct (h !! l) as [d|]; simpl.
  - destruct (d !! k) as [[]|]; try reflexivity. discriminate.
  - intros _. rewrite lookup_empty. reflexivity.
Qed.

Lemma group_sum_skips (h : heap) docs k :
  (forall x, num_add x num_zero = x) ->
  group_sum h docs k
  = group_sum h (filter (fun l => has_number h k l = true) docs) k.
Proof.
  intros Hid. unfold group_sum. generalize num_zero at 1 2.
  induction docs as [|l docs IH]; intros a; [reflexivity|].
  rewrite filter_cons. destruct (has_number h k l) eqn:E.
  - destruct (decide (true = true)); [|contradiction]. simpl. apply IH.
  - destruct (decide (false = true)); [discriminate|]. simpl.
    rewrite (num_field_missing _ _ _ E), Hid. apply IH.
Qed.

(** X7. A record whose income (or expense) is absent, null or not a number
    adds nothing to the total: when adding a zero changes no number, the
    dashboard's totals are the sums over the in-window records that hold a
    number there. *)
Theorem dashboard_skips_missing now st month year lo hi :
  (forall x, num_add x num_zero = x) ->
  month_window (resolve_year now year) (resolve_month now month) = Some (lo, hi) ->
  exists r,
    dashboard now st month year = Return r
    /\ total_income r
       = group_sum (objects st)
           (filter (fun l => has_number (objects st) "income" l = true)
                   (in_window st lo hi)) "income"
    /\ total_expense r
       = group_sum (objects st)
           (filter (fun l => has_number (objects st) "expense" l = true)
                   (in_window st lo hi)) "expense".
Proof.
  intros Hid Hw. unfold dashboard, window_or_raise, count_documents.
  rewrite Hw. simpl. rewrite !find_window. simpl.
  eexists. split; [reflexivity|]. simpl.
  split; apply group_sum_skips, Hid.
Qed.

(** X8. The recap and the dashboard agree: for the same month and year both
    fail with the same exception, or both return, and then the recap
    carries the dashboard's counts per category and its two totals, for the
    month and year that were resolved. *)
Theorem recap_matches_dashboard now st month year :
  match dashboard now st month year, monthly_recap now st month year with
  | Return r, Return rc =>
      recap_categories rc = per_category r
      /\ recap_income rc = total_income r
      /\ recap_expense rc = total_expense r
      /\ recap_month rc = resolve_month now month
      /\ recap_year rc = resolve_year now year
  | Uncaught e, Uncaught e' => e = e'
  | _, _ => False
  end.
Proof.
  unfold dashboard, monthly_recap, window_or_raise, count_documents.
  destruct (month_window (resolve_year now year) (resolve_month now month))
    as [[lo hi]|]; simpl; [|reflexivity].
  rewrite !find_window. simpl. repeat split.
Qed.

(** *** The most frequent category *)

Lemma max_key_spec rest : forall best : value * nat,
  exists i c,
    (best :: rest) !! i = Some (max_key best rest, c)
    /\ (forall j kv, (best :: rest) !! j = Some kv -> kv.2 <= c)
    /\ (forall j kv, j < i -> (best :: rest) !! j = Some kv -> kv.2 < c).
Proof.
  induction rest as [|kv rest IH]; intros best.
  - exists 0, best.2. simpl. split; [destruct best; reflexivity|]. split.
    + intros [|j] x Hx; simpl in Hx; [injection Hx as <-; lia|discriminate].
    + intros j x Hj. lia.
  - cbn [max_key]. destruct (Nat.ltb_spec best.2 kv.2) as [Hlt|Hge].
    + destruct (IH kv) as (i & c & Hi & Hmax & Hfirst).
      exists (S i), c. split; [exact Hi|]. split.
      * intros [|j] x Hx; simpl in Hx.
        -- injection Hx as <-. specialize (Hmax 0 kv eq_refl). lia.
        -- eapply Hmax. exact Hx.
      * intros [|j] x Hj Hx; simpl in Hx.
        -- injection Hx as <-. specialize (Hmax 0 kv eq_refl). lia.
        -- eapply (Hfirst j); [lia|exact Hx].
    + destruct (IH best) as (i & c & Hi & Hmax & Hfirst).
      destruct i as [|i].
      * simpl in Hi. injection Hi as Hb.
        assert (Hc : best.2 = c) by (rewrite Hb; reflexivity).
        exists 0, c. split; [simpl; f_equal; exact Hb|].
        split; [|intros j x Hj; lia].
        intros [|[|j]] x Hx; simpl in Hx.
        -- injection Hx as <-. lia.
        -- injection Hx as <-. lia.
        -- apply (Hmax (S j) x). exact Hx.
      * exists (S (S i)), c. split; [exact Hi|]. split.
        -- intros [|[|j]] x Hx; simpl in Hx.
           ++ injection Hx as <-. apply (Hmax 0). reflexivity.
           ++ injection Hx as <-. specialize (Hfirst 0 best ltac:(lia) eq_refl). lia.
           ++ apply (Hmax (S j) x). exact Hx.
        -- intros [|[|j]] x Hj Hx; simpl in Hx.
           ++ injection Hx as <-. apply (Hfirst 0); [lia|reflexivity].
           ++ injection Hx as <-. specialize (Hfirst 0 best ltac:(lia) eq_refl). lia.
           ++ apply (Hfirst (S j) x); [lia|exact Hx].
Qed.

(** X9. The recap's most frequent category is "N/A" for no category at all;
    otherwise it is the text of a category whose count no other exceeds,
    and of the first such category in the order of the dictionary. *)
Theorem top_category_is_first_maximum (h : heap) categories :
  top_category h [] = "N/A"
  /\ (categories <> [] ->
      exists i k c,
        categories !! i = Some (k, c)
        /\ top_category h categories = py_str h k
        /\ (forall j kv, categories !! j = Some kv -> kv.2 <= c)
        /\ (forall j kv, j < i -> categories !! j = Some kv -> kv.2 < c)).
Proof.
  split; [reflexivity|]. intros Hne.
  destruct categories as [|best rest]; [contradiction|].
  destruct (max_key_spec rest best) as (i & c & Hi & Hmax & Hfirst).
  exists i, (max_key best rest), c. auto.
Qed.

(** ** What the serializer leaves alone *)

(** X10. After a call of the serializer the record holds, under every key
    but [_id] and [id], what it held before, a date or date-time apart,
    which has become its ISO text: no key is added or dropped, and a list
    (with its order), a text, a number or a null stays as it was. A native
    identifier that is not null has moved to [id] as text; without one,
    [_id] and [id] are treated like the other keys. *)
Theorem serialize_doc_fields n h l d h' :
  h !! l = Some d -> serialize_doc n h l = Some h' ->
  exists d', h' !! l = Some d'
    /\ (forall k, k <> "_id" -> k <> "id" -> d' !! k = conv <$> d !! k)
    /\ (forall v, d !! "_id" = Some v -> is_None v = false ->
          d' !! "_id" = None /\ d' !! "id" = Some (VStr (py_str h v)))
    /\ (~ has_id d -> forall k, d' !! k = conv <$> d !! k).
Proof.
  intros Hd E. destruct (serialize_doc_spec _ _ _ _ E) as (_ & _ & Hser).
  exists (serialized h d). split; [apply Hser, Hd|]. split; [|split].
  - intros k H1 H2. apply serialized_other; assumption.
  - intros v Hv Hn. split.
    + apply serialized_native_id. exists v. auto.
    + apply serialized_id; assumption.
  - intros Hno k. apply serialized_no_id_field, Hno.
Qed.

Lemma hprog_lookup_inv h h' x d' :
  hprog h h' -> h' !! x = Some d' -> exists d, h !! x = Some d /\ dprog d d'.
Proof.
  intros H Hx. specialize (H x). rewrite Hx in H. inversion H; subst. eauto.
Qed.

Lemma within_hprog n : forall h h' a x,
  hprog h h' -> within n h' a x -> within n h a x.
Proof.
  induction n as [|n IH]; intros h h' a x Hp; simpl; [intros []|].
  intros [->|(d' & k & vs & r & Hd' & Hk & Hr & Hw)]; [left; reflexivity|].
  right. destruct (hprog_lookup_inv _ _ _ _ Hp Hd') as (d & Hd & Hdp).
  exists d, k, vs, r. split; [exact Hd|].
  split; [eapply dprog_list; eassumption|]. split; [exact Hr|].
  eapply IH; eassumption.
Qed.

Lemma set_item_other l k v (h : heap) x :
  x <> l -> set_item l k v h !! x = h !! x.
Proof.
  intros Hx. unfold set_item. destruct (h !! l); [|reflexivity].
  apply lookup_insert_ne. congruence.
Qed.

Section FrameLoops.

Variable n : nat.
Variable self : heap -> loc -> option heap.
Hypothesis self_spec :
  forall h x h', self h x = Some h' -> hprog h h' /\ done n h' x.
Hypothesis self_frame :
  forall h r h' x, self h r = Some h' -> ~ within n h r x -> h' !! x = h !! x.

Lemma walk_list_frame items : forall acc h h' out x,
  walk_list self items acc h = Some (h', out) ->
  (forall r, VRef r ∈ items -> ~ within n h r x) ->
  h' !! x = h !! x.
Proof using self_spec self_frame.
  induction items as [|item rest IH]; intros acc h h' out x; simpl.
  - intros [= <- <-] _. reflexivity.
  - intros Hw Hout.
    assert (Hrest : forall r, VRef r ∈ rest -> ~ within n h r x)
      by (intros r Hr; apply Hout; right; exact Hr).
    destruct item; try (eapply IH; eassumption).
    destruct (self h l) as [h1|] eqn:E; simpl in Hw; [|discriminate].
    rewrite (IH _ _ _ _ x Hw).
    + apply (self_frame _ _ _ _ E). apply Hout. left.
    + intros r Hr Hin. apply (Hrest r Hr).
      eapply within_hprog; [|exact Hin]. apply (self_spec _ _ _ E).
Qed.

Variable l : loc.
Variable snap : dict.
Hypothesis snap_no_id : ~ has_id snap.

Lemma convert_item_frame h h' dc k v x :
  x <> l -> h !! l = Some dc -> dstep snap dc -> snap !! k = Some v ->
  (forall vs r, v = VList vs -> VRef r ∈ vs -> ~ within n h r x) ->
  convert_item self l k v h = Some h' ->
  h' !! x = h !! x.
Proof using self_spec self_frame snap_no_id.
  intros Hx Hl Hs Hk Hout. unfold convert_item.
  destruct (convert_first l snap snap_no_id _ _ _ _ Hl Hs Hk) as (Hp1 & _).
  assert (E1 : (if is_temporal v then set_item l k (VStr (isoformat v)) h else h)
               !! x = h !! x)
    by (destruct (is_temporal v); [apply set_item_other, Hx|reflexivity]).
  set (h1 := if is_temporal v then set_item l k (VStr (isoformat v)) h else h) in *.
  clearbody h1.
  destruct v; try (intros [= <-]; exact E1).
  destruct (walk_list self vs [] h1) as [[h2 out]|] eqn:Hw; simpl; [|discriminate].
  intros [= <-]. rewrite set_item_other by exact Hx.
  rewrite (walk_list_frame _ _ _ _ _ x Hw); [exact E1|].
  intros r Hr Hin. apply (Hout vs r eq_refl Hr).
  eapply within_hprog; eassumption.
Qed.

Lemma convert_items_frame items : forall h h' dc x,
  x <> l -> h !! l = Some dc -> dstep snap dc ->
  (forall k v, (k, v) ∈ items -> snap !! k = Some v) ->
  (forall k v vs r, (k, v) ∈ items -> v = VList vs -> VRef r ∈ vs ->
     ~ within n h r x) ->
  convert_items self l items h = Some h' ->
  h' !! x = h !! x.
Proof using self_spec self_frame snap_no_id.
  induction items as [|[k v] rest IH]; intros h h' dc x Hx Hl Hs Hin Hout; simpl.
  - intros [= <-]. reflexivity.
  - destruct (convert_item self l k v h) as [h1|] eqn:E; simpl; [|discriminate].
    intros Hrest.
    assert (Hk : snap !! k = Some v) by (apply Hin; left).
    destruct (convert_item_spec n self self_spec l snap snap_no_id
                _ _ _ _ _ Hl Hs Hk E) as (Hp1 & (d1 & Hl1 & Hs1) & _).
    rewrite (IH _ _ _ x Hx Hl1 Hs1); [| | |exact Hrest].
    + eapply convert_item_frame; try eassumption.
      intros vs r Hv Hr. eapply Hout; [left| |]; eassumption.
    + intros; apply Hin; right; assumption.
    + intros k' v' vs r Hkv Hv Hr Hw.
      apply (Hout k' v' vs r); [right; exact Hkv|exact Hv|exact Hr|].
      eapply within_hprog; eassumption.
Qed.

End FrameLoops.

(** X11. The serializer changes no record but the one it is given and the
    records nested in its lists, as deep as the call goes: every other
    record of the heap is after the call what it was before. *)
Theorem serialize_doc_frame n : forall h l h' x,
  serialize_doc n h l = Some h' -> ~ within n h l x -> h' !! x = h !! x.
Proof.
  induction n as [|n IH]; intros h l h' x; simpl; [discriminate|].
  destruct (h !! l) as [d|] eqn:Hd; simpl; [|discriminate].
  destruct (decide (d = ∅)) as [->|Hne]; [intros [= <-]; reflexivity|].
  intros Hc Hout.
  assert (Hx : x <> l) by (intros ->; apply Hout; left; reflexivity).
  assert (Hself : forall h x h', serialize_doc n h x = Some h' ->
                    hprog h h' /\ done n h' x).
  { intros h0 y h0' H0. apply serialize_doc_spec in H0 as (? & ? & _). auto. }
  assert (Hp : hprog h (<[l := rename_id h d]> h))
    by (apply (hprog_insert _ _ _ _ Hd), rename_id_dprog).
  transitivity ((<[l := rename_id h d]> h) !! x);
    [|apply lookup_insert_ne; congruence].
  eapply (convert_items_frame n _ Hself IH l (rename_id h d)
            (rename_id_no_id h d)); [exact Hx|apply lookup_insert_eq
            |apply dstep_refl| | |exact Hc].
  - intros k v Hkv. apply elem_of_map_to_list in Hkv. exact Hkv.
  - intros k v vs r Hkv -> Hr Hw. apply elem_of_map_to_list in Hkv.
    apply Hout. right. exists d, k, vs, r.
    split; [reflexivity|].
    split; [eapply dprog_list; [apply rename_id_dprog|exact Hkv]|].
    split; [exact Hr|]. eapply within_hprog; eassumption.
Qed.

Lemma withinb_complete n : forall h l x,
  within n h l x -> withinb n h l x = true.
Proof.
  induction n as [|n IH]; intros h l x; simpl; [intros []|].
  intros [->|(d & k & vs & r & Hd & Hk & Hr & Hw)].
  - rewrite bool_decide_eq_true_2 by reflexivity. reflexivity.
  - apply orb_true_iff. right. rewrite Hd. apply existsb_exists.
    exists (k, VList vs). split.
    + apply list_elem_of_In, elem_of_map_to_list. exact Hk.
    + simpl. apply existsb_exists. exists (VRef r).
      split; [apply list_elem_of_In, Hr|]. apply IH, Hw.
Qed.

(** ** Exports of a given month *)

Lemma listed_window st now month year lo hi :
  listing_window now month year = Some (lo, hi) ->
  listed st now month year None = in_window st lo hi.
Proof.
  intros Hw. unfold listed, in_window. rewrite Hw.
  apply list_filter_iff. intros l. unfold selected, in_range, asked. simpl.
  destruct (objects st !! l); [|reflexivity].
  rewrite andb_true_r. reflexivity.
Qed.

(** X12. When a month or a year is given and the month is one the calendar
    has, both exports are about the same records: the rows of the CSV
    export and the detail lines of the text report are the records dated
    within that month, in stored order and serialized, and the recap in the
    report's heading counts the categories of these same records. *)
Theorem exports_follow_the_window limit now st month year lo hi :
  truthy_int month || truthy_int year = true ->
  month_window (resolve_year now year) (resolve_month now month) = Some (lo, hi) ->
  (forall l, l ∈ activity st -> nested limit (objects st) l) ->
  exists h recap,
    monthly_recap now st month year = Return recap
    /\ recap_categories recap
       = by_label (objects st)
           (group_count (objects st) (in_window st lo hi) "category")
    /\ (exists d, export_csv limit now st month year = Return d
          /\ content d = to_csv h (in_window st lo hi))
    /\ (exists d, export_pdf limit now st month year = Return d
          /\ content d = String.concat (String LF EmptyString)
                           (report_lines recap h (in_window st lo hi)))
    /\ forall l, l ∈ in_window st lo hi -> done limit h l.
Proof.
  intros Ht Hw Hn.
  assert (Hl : listed st now month year None = in_window st lo hi).
  { apply listed_window. unfold listing_window. rewrite Ht. exact Hw. }
  destruct (serialize_all_total limit (in_window st lo hi) (objects st))
    as (h & E & _).
  { intros l Hin. apply Hn. rewrite <- Hl in Hin. eapply listed_stored, Hin. }
  assert (Hlist : list_activities limit now st month year None None
                  = Return (h, in_window st lo hi)).
  { unfold list_activities, get_documents. rewrite find_listed, Hl. simpl.
    rewrite E. reflexivity. }
  assert (Hrecap : exists recap,
            monthly_recap now st month year = Return recap
            /\ recap_categories recap
               = by_label (objects st)
                   (group_count (objects st) (in_window st lo hi) "category")).
  { unfold monthly_recap, window_or_raise. rewrite Hw. simpl.
    rewrite !find_window. simpl. eexists. split; reflexivity. }
  destruct Hrecap as (recap & Hr & Hc).
  exists h, recap. split; [exact Hr|]. split; [exact Hc|].
  split; [|split].
  - unfold export_csv. rewrite Hlist. eexists. split; reflexivity.
  - unfold export_pdf. rewrite Hr. simpl. rewrite Hlist.
    eexists. split; reflexivity.
  - apply (serialize_all_spec _ _ _ _ E).
Qed.

(** ** Requests in sequence *)

Lemma model_dump_no_list (p : ActivityUpdate) k v :
  (k, v) ∈ model_dump_exclude_none p -> forall vs, v <> VList vs.
Proof.
  intros H vs. unfold model_dump_exclude_none in H.
  repeat (apply elem_of_app in H as [H|H]);
    match type of H with
    | _ ∈ dump_field _ _ ?x => destruct x; simpl in H
    end;
    try (inversion H; fail);
    apply list_elem_of_singleton in H; inversion H; discriminate.
Qed.

Lemma set_fields_lists fields (d : dict) k vs :
  (forall k v, (k, v) ∈ fields -> forall vs, v <> VList vs) ->
  NoDup fields.*1 ->
  set_fields fields d !! k = Some (VList vs) -> d !! k = Some (VList vs).
Proof.
  intros Hv Hn. destruct (decide (k ∈ fields.*1)) as [Hk|Hk].
  - apply list_elem_of_fmap in Hk as ([k' v] & -> & Hin). simpl.
    rewrite (set_fields_given _ _ _ _ Hn Hin). intros [= ->].
    exfalso. eapply Hv; [exact Hin|reflexivity].
  - rewrite set_fields_other by exact Hk. auto.
Qed.

Lemma nested_update n : forall (h : heap) l d d' x,
  h !! l = Some d ->
  (forall k vs, d' !! k = Some (VList vs) -> d !! k = Some (VList vs)) ->
  nested n h x -> nested n (<[l := d']> h) x.
Proof.
  induction n as [|n IH]; intros h l d d' x Hd Hsub; simpl; [auto|].
  intros (dx & Hx & Hch). destruct (decide (x = l)) as [->|Hne].
  - exists d'. rewrite lookup_insert_eq. split; [reflexivity|].
    intros k vs r Hk Hr. apply (IH _ _ d); [exact Hd|exact Hsub|].
    rewrite Hd in Hx. injection Hx as <-.
    apply (Hch k vs r); [apply Hsub, Hk|exact Hr].
  - exists dx. rewrite lookup_insert_ne by congruence. split; [exact Hx|].
    intros k vs r Hk Hr. apply (IH _ _ d); [exact Hd|exact Hsub|].
    apply (Hch k vs r); assumption.
Qed.

Lemma with_oid_update st o l (d d' : dict) :
  objects st !! l = Some d -> d' !! "_id" = d !! "_id" ->
  with_oid (Store (<[l := d']> (objects st)) (activity st)) o = with_oid st o.
Proof.
  intros Hd Hid. unfold with_oid. simpl. apply list_filter_iff. intros x.
  unfold has_oid. destruct (decide (x = l)) as [->|Hne].
  - rewrite lookup_insert_eq, Hd. simpl. rewrite Hid. reflexivity.
  - rewrite lookup_insert_ne by congruence. reflexivity.
Qed.

Lemma get_activity_serialized limit st activity_id o l rest d :
  ObjectId activity_id = Some o -> with_oid st o = l :: rest ->
  objects st !! l = Some d -> nested limit (objects st) l ->
  exists h,
    get_activity limit st activity_id = Return (h, l)
    /\ h !! l = Some (serialized (objects st) d).
Proof.
  intros Ho Hw Hd Hn. destruct (with_oid_head _ _ _ _ Hw) as (d0 & Hd0 & Hid).
  rewrite Hd in Hd0. injection Hd0 as <-.
  unfold get_activity, to_object_id, find_one. rewrite Ho. simpl.
  rewrite find_with_oid, Hw. simpl.
  assert (Hne : bool_decide (objects st !! l = Some ∅) = false).
  { apply bool_decide_eq_false. rewrite Hd. intros [= ->].
    rewrite lookup_empty in Hid. discriminate. }
  rewrite Hne. destruct (serialize_doc_total _ _ _ Hn) as [h E]. rewrite E.
  destruct (serialize_doc_spec _ _ _ _ E) as (_ & _ & Hser).
  exists h. split; [reflexivity|]. apply Hser, Hd.
Qed.

Lemma model_dump_not_id (p : ActivityUpdate) k :
  k ∈ (model_dump_exclude_none p).*1 -> k <> "_id" /\ k <> "id".
Proof.
  intros H. eapply elem_of_sublist in H; [|apply model_dump_keys].
  split; intros ->; revert H;
    apply (bool_decide_unpack (_ ∉ _)); vm_compute; exact I.
Qed.

(** X14. A read that follows a partial update of a stored record returns
    the record with the new values: every field the payload gave is there
    (a date as its ISO text), [updated_at] is the time of the update as ISO
    text, and [id] is still the identifier's text. *)
Theorem get_after_update limit now st activity_id payload o l rest :
  ObjectId activity_id = Some o ->
  model_dump_exclude_none payload <> [] ->
  with_oid st o = l :: rest -> nested limit (objects st) l ->
  exists h,
    get_activity limit (update_activity now st activity_id payload).1 activity_id
    = Return (h, l)
    /\ (forall k v, (k, v) ∈ model_dump_exclude_none payload ->
          get h l k = Some (conv v))
    /\ get h l "updated_at" = Some (VStr (datetime_isoformat "T" now))
    /\ get h l "id" = Some (VStr o).
Proof.
  intros Ho Hp Hw Hn. destruct (with_oid_head _ _ _ _ Hw) as (d & Hd & Hid).
  set (fields := (model_dump_exclude_none payload
                  ++ [("updated_at", VDateTime now)])%list).
  set (d' := set_fields fields d).
  set (st' := Store (<[l := d']> (objects st)) (activity st)).
  assert (Hup : (update_activity now st activity_id payload).1 = st').
  { rewrite (update_activity_with_fields _ _ _ _ Hp).
    unfold to_object_id. rewrite Ho.
    rewrite (update_one_found _ _ _ _ _ _ Hw Hd). reflexivity. }
  assert (Hnd : NoDup fields.*1) by apply update_fields_NoDup.
  assert (Hkeys : forall k, k ∈ fields.*1 -> k <> "_id" /\ k <> "id").
  { intros k. unfold fields. rewrite fmap_app, elem_of_app.
    intros [H|H]; [apply model_dump_not_id in H; exact H|].
    apply list_elem_of_singleton in H as ->. split; discriminate. }
  assert (Hid' : d' !! "_id" = d !! "_id").
  { apply set_fields_other. intros H. apply Hkeys in H as [H _]. congruence. }
  assert (Hvals : forall k v, (k, v) ∈ fields -> forall vs, v <> VList vs).
  { intros k v. unfold fields. rewrite elem_of_app.
    intros [H|H]; [eapply model_dump_no_list; exact H|].
    apply list_elem_of_singleton in H. inversion H. discriminate. }
  assert (Hw' : with_oid st' o = l :: rest).
  { unfold st'. rewrite (with_oid_update _ _ _ _ _ Hd Hid'). exact Hw. }
  assert (Hn' : nested limit (objects st') l).
  { simpl. apply (nested_update _ _ _ d); [exact Hd| |exact Hn].
    intros k vs. apply set_fields_lists; assumption. }
  destruct (get_activity_serialized limit st' activity_id o l rest d' Ho Hw'
              (lookup_insert_eq _ _ _) Hn') as (h & E & Hser).
  rewrite Hup. exists h. split; [exact E|].
  assert (Hget : forall k v, (k, v) ∈ fields -> get h l k = Some (conv v)).
  { intros k v Hkv. unfold get. rewrite Hser. simpl.
    destruct (Hkeys k) as [H1 H2].
    { apply list_elem_of_fmap. exists (k, v). auto. }
    rewrite (serialized_other _ _ _ H1 H2).
    unfold d'. rewrite (set_fields_given _ _ _ _ Hnd Hkv). reflexivity. }
  split; [|split].
  - intros k v Hkv. apply Hget. unfold fields. apply elem_of_app. left. exact Hkv.
  - apply (Hget "updated_at" (VDateTime now)). unfold fields.
    apply elem_of_app. right. left.
  - unfold get. rewrite Hser. simpl.
    rewrite (serialized_id _ _ (VObjectId o)); [reflexivity| |reflexivity].
    rewrite Hid'. exact Hid.
Qed.

Lemma find_in_remove_first (h : heap) q l docs : forall found,
  NoDup docs -> find_in h docs q = Some found ->
  exists found',
    find_in h (remove_first l docs) q = Some found'
    /\ forall x, x ∈ found' <-> x ∈ found /\ x <> l.
Proof.
  induction docs as [|y docs IH]; intros found Hnd; simpl.
  - intros [= <-]. exists []. split; [reflexivity|].
    intros x. split; [intros H; inversion H|intros [H _]; inversion H].
  - apply NoDup_cons in Hnd as [Hy Hnd].
    destruct (match h !! y with Some d => matches d q | None => Some false end)
      as [b|] eqn:Hb; simpl; [|discriminate].
    destruct (find_in h docs q) as [r|] eqn:Hr; simpl; [|discriminate].
    intros [= <-]. destruct (decide (y = l)) as [->|Hne].
    + exists r. split; [exact Hr|]. intros x. split.
      * intros Hx. split.
        -- destruct b; [right; exact Hx|exact Hx].
        -- intros ->. apply Hy. eapply find_in_elem; eassumption.
      * intros [Hx Hxl]. destruct b; [|exact Hx].
        apply elem_of_cons in Hx as [->|Hx]; [contradiction|exact Hx].
    + destruct (IH r Hnd eq_refl) as (r' & Hr' & Hiff).
      cbn [find_in]. rewrite Hb, Hr'. simpl.
      exists (if b then y :: r' else r'). split; [reflexivity|].
      intros x. destruct b; [|apply Hiff].
      rewrite !elem_of_cons, Hiff. split.
      * intros [->|[Hx Hxl]]; [split; [left; reflexivity|exact Hne]|auto].
      * intros [[->|Hx] Hxl]; [left; reflexivity|right; auto].
Qed.

(** X15. A listing that follows a deletion no longer holds the deleted
    record, and holds every other record that a listing with the same
    filters (month, year, category and search text) held before: for a
    collection of distinct records, when the listing returns, deleting by
    the identifier of a stored record takes that record, and no other, out
    of what the listing with these filters returns. *)
Theorem list_after_delete limit now st activity_id o l rest
    month year category search h0 docs0 :
  ObjectId activity_id = Some o -> with_oid st o = l :: rest ->
  NoDup (activity st) ->
  (forall x, x ∈ activity st -> nested limit (objects st) x) ->
  list_activities limit now st month year category search = Return (h0, docs0) ->
  exists h docs,
    list_activities limit now (delete_activity st activity_id).1
      month year category search = Return (h, docs)
    /\ (l ∉ docs)
    /\ forall x, x <> l -> (x ∈ docs <-> x ∈ docs0).
Proof.
  intros Ho Hw Hnd Hn Hlist.
  set (q := build_query now month year category search) in *.
  assert (Hf : find st q = Some docs0).
  { unfold list_activities, get_documents in Hlist. fold q in Hlist.
    destruct (find st q) as [found|]; simpl in Hlist; [|discriminate].
    destruct (serialize_all limit (objects st) found); [|discriminate].
    inversion Hlist. reflexivity. }
  set (st' := Store (objects st) (remove_first l (activity st))).
  assert (Hdel : (delete_activity st activity_id).1 = st').
  { unfold delete_activity, to_object_id, delete_one, find_one.
    rewrite Ho, find_with_oid, Hw. reflexivity. }
  destruct (find_in_remove_first (objects st) q l (activity st) docs0 Hnd Hf)
    as (docs & Hf' & Hiff).
  destruct (serialize_all_total limit docs (objects st)) as (h & E & _).
  { intros x Hx. apply Hn. apply Hiff in Hx as [Hx _].
    eapply find_in_elem; eassumption. }
  rewrite Hdel. unfold list_activities, get_documents, find. simpl.
  fold q. rewrite Hf'. simpl. rewrite E. exists h, docs.
  split; [reflexivity|]. split.
  - intros H. apply Hiff in H as [_ H]. contradiction.
  - intros x Hx. rewrite Hiff. split; [intros [H _]; exact H|auto].
Qed.

(** X16. The dashboard counts what the listing shows: when a month or a
    year is given and the month is one the calendar has, the dashboard's
    total is the number of records the listing of that month returns. *)
Theorem dashboard_counts_the_listing limit now st month year lo hi :
  truthy_int month || truthy_int year = true ->
  month_window (resolve_year now year) (resolve_month now month) = Some (lo, hi) ->
  (forall l, l ∈ activity st -> nested limit (objects st) l) ->
  exists r h docs,
    dashboard now st month year = Return r
    /\ list_activities limit now st month year None None = Return (h, docs)
    /\ total_activities r = length docs.
Proof.
  intros Ht Hw Hn.
  assert (Hl : listed st now month year None = in_window st lo hi).
  { apply listed_window. unfold listing_window. rewrite Ht. exact Hw. }
  destruct (serialize_all_total limit (in_window st lo hi) (objects st))
    as (h & E & _).
  { intros l Hin. apply Hn. rewrite <- Hl in Hin. eapply listed_stored, Hin. }
  unfold dashboard, window_or_raise, count_documents, list_activities,
    get_documents.
  rewrite Hw, find_listed, Hl. simpl. rewrite !find_window. simpl. rewrite E.
  eexists _, h, (in_window st lo hi). split; [reflexivity|].
  split; reflexivity.
Qed.

End Backend.

Arguments VNone {number}.
Arguments VNum {number} x.
Arguments VStr {number} s.
Arguments VObjectId {number} oid.
Arguments VDate {number} d.
Arguments VDateTime {number} t.
Arguments VList {number} vs.
Arguments VRef {number} l.
Arguments Store {number} objects activity.
Arguments objects {number} s.
Arguments activity {number} s.
Arguments Field {number} field c.
Arguments Or {number} alternatives.
Arguments CRange {number} lo hi.
Arguments CEq {number} v.
Arguments CRegex {number} pattern options.
Arguments serialize_doc {number number_eq_dec} repr_other fuel h doc.
Arguments serialize_all {number number_eq_dec} repr_other fuel h docs.
Arguments serialized {number} repr_other h d.
Arguments nested {number} n h l.
Arguments nestedb {number} n h l.
Arguments done {number} n h l.
Arguments matches {number number_eq_dec} regex_other d query.
Arguments build_query {number} now month year category search.
Arguments in_window {number} st lo hi.
Arguments category_of {number} h l.
Arguments get {number} h a k.
Arguments csv_text {number} repr_other h v.
Arguments csv_line {number} repr_other h a.
Arguments to_csv {number} repr_other h activities.
Arguments report_lines {number} repr_other recap h activities.
Arguments by_label {number number_eq_dec} num_zero h cat_counts.
Arguments group_count {number number_eq_dec} h docs k.
Arguments group_sum {number} num_zero num_add h docs k.
Arguments sum_values {number} d.
Arguments list_activities {number number_eq_dec} repr_other regex_other
  limit now st month year category search.
Arguments get_activity {number number_eq_dec} repr_other regex_other ObjectId
  limit st activity_id.
Arguments update_activity {number number_eq_dec} regex_other ObjectId
  now st activity_id payload.
Arguments delete_activity {number number_eq_dec} regex_other ObjectId
  st activity_id.
Arguments dashboard {number number_eq_dec} num_zero num_add regex_other
  now st month year.
Arguments monthly_recap {number number_eq_dec} num_zero num_add repr_other
  regex_other format_2f now st month year.
Arguments export_csv {number number_eq_dec} repr_other regex_other
  limit now st month year.
Arguments export_pdf {number number_eq_dec} num_zero num_add repr_other
  regex_other format_2f limit now st month year.
Arguments model_dump_exclude_none {number} p.
Arguments total_activities {number} d.
Arguments total_income {number} d.
Arguments total_expense {number} d.
Arguments per_category {number} d.
Arguments recap_month {number} r.
Arguments recap_year {number} r.
Arguments recap_categories {number} r.
Arguments recap_income {number} r.
Arguments recap_expense {number} r.
Arguments recap_summary {number} r.

Arguments conv {number} v.
Arguments py_str {number} repr_other h v.
Arguments is_None {number} v.
Arguments has_id {number} d.
Arguments top_category {number} repr_other h categories.
Arguments listed {number number_eq_dec} st now month year category.
Arguments with_oid {number number_eq_dec} st o.
Arguments has_number {number} h k l.
Arguments within {number} n h l x.
Arguments withinb {number} n h l x.
(** * Sample instances and inputs

    Integers stand in for the numbers, written with two decimals by
    [sample_2f]; identifiers are 24 hexadecimal digits. *)

Definition sample_repr (h : gmap nat (gmap string (value Z))) (v : value Z) : string :=
  match v with
  | VNum x => str_int x
  | _ => "?"
  end.

Definition sample_regex (pat : string) (icase : bool) (s : string) : option bool := None.

Definition is_hex (c : ascii) : bool := mem_char c "0123456789abcdefABCDEF".

Fixpoint all_hex (s : string) : bool :=
  match s with
  | EmptyString => true
  | String c s' => is_hex c && all_hex s'
  end.

Definition sample_ObjectId (s : string) : option string :=
  if (String.length s =? 24)%nat && all_hex s then Some (lower s) else None.

Definition sample_2f (x : Z) : string := str_int x +:+ ".00".

Definition sample_now : datetime := DateTime (Date 2024 3 15) 10 30 0 0.

(** An activity of March 2024 with one attachment, as the store returns it. *)
Definition sample_attachment : gmap string (value Z) :=
  <["filename" := VStr "notulen.pdf"]>
    (<["url" := VStr "/files/1_notulen.pdf"]> ∅).

Definition sample_doc : gmap string (value Z) :=
  <["_id" := VObjectId "65e6f0a1b2c3d4e5f6a7b8c9"]>
    (<["date" := VDate (Date 2024 3 5)]>
       (<["name" := VStr "Rapat"]>
          (<["category" := VStr "administrasi"]>
             (<["duration" := VNum 2%Z]>
                (<["income" := VNum 0%Z]>
                   (<["expense" := VNum 50000%Z]>
                      (<["attachments" := VList [VRef 1%nat]]> ∅))))))).

Definition sample_heap : gmap nat (gmap string (value Z)) :=
  <[0%nat := sample_doc]> (<[1%nat := sample_attachment]> ∅).

Definition sample_store : store Z := Store sample_heap [0%nat].


(** Two activities of the same month, one with the empty category and one
    with the category "unknown". *)
Definition clash_heap : gmap nat (gmap string (value Z)) :=
  <[0%nat := <["date" := VDate (Date 2024 3 5)]>
               (<["name" := VStr "Arsip"]> (<["category" := VStr EmptyString]> ∅))]>
    (<[1%nat := <["date" := VDate (Date 2024 3 9)]>
                  (<["name" := VStr "Lain"]> (<["category" := VStr "unknown"]> ∅))]> ∅).

Definition clash_store : store Z := Store clash_heap [0%nat; 1%nat].

(** An activity whose notes span two lines. *)
Definition two_line_notes : string :=
  "baris satu" +:+ String LF EmptyString +:+ "baris dua".

Definition notes_heap : gmap nat (gmap string (value Z)) :=
  <[0%nat := <["date" := VDate (Date 2024 3 5)]>
               (<["name" := VStr "Rapat"]> (<["notes" := VStr two_line_notes]> ∅))]> ∅.

Definition notes_store : store Z := Store notes_heap [0%nat].

(** A record whose name holds "abc" and no dot. *)
Definition abc_doc : gmap string (value Z) := <["name" := VStr "abc"]> ∅.

Definition no_fields : ActivityUpdate Z :=
  {| u_date := None; u_name := None; u_category := None; u_duration := None;
     u_result := None; u_notes := None; u_income := None; u_expense := None;
     u_finance_category := None |}.


(** A second activity, of April 2024, with no income and a null expense. *)
Definition april_doc : gmap string (value Z) :=
  <["_id" := VObjectId "65e6f0a1b2c3d4e5f6a7b8ca"]>
    (<["date" := VDate (Date 2024 4 2)]>
       (<["name" := VStr "Kuliah tamu"]>
          (<["category" := VStr "akademik"]>
             (<["duration" := VNum 3%Z]>
                (<["expense" := VNone]> ∅))))).

(** The sample activity with its attachment, and the April activity. *)
Definition ledger_heap : gmap nat (gmap string (value Z)) :=
  <[2%nat := april_doc]> sample_heap.

Definition ledger_store : store Z := Store ledger_heap [0%nat; 2%nat].

(** A payload that renames the activity and sets nothing else. *)
Definition rename_payload : ActivityUpdate Z :=
  {| u_date := None; u_name := Some "Rapat pleno"; u_category := None;
     u_duration := None; u_result := None; u_notes := None; u_income := None;
     u_expense := None; u_finance_category := None |}.

(** Counts per category with a tie for the first place. *)
Definition tied_counts : list (value Z * nat) :=
  [(VStr "sosial", 1%nat); (VStr "akademik", 2%nat); (VStr "keuangan", 2%nat)].
(** * The theorems at the samples, and where the spec's sentences fail *)

(** ** The month window *)

(** [month_window_spec] at February 2024, a leap year. *)
Lemma month_window_spec_witness :
  (1 <= 2 <= 12)%Z /\ (MINYEAR <= 2024 <= MAXYEAR)%Z
  /\ month_window 2024 2 = Some (first_day 2024 2, first_day_of_next 2024 2)
  /\ date_ltb (first_day 2024 2) (first_day_of_next 2024 2) = true
  /\ date_sub (first_day_of_next 2024 2) (first_day 2024 2) = 29%Z.
Proof.
  split; [lia|]. split; [unfold MINYEAR, MAXYEAR; lia|].
  apply (month_window_spec 2024 2); unfold MINYEAR, MAXYEAR; lia.
Defined.

(** C3 fails for December of the year 9999, a month in 1..12 of a year the
    date type holds: the first day of the next month would lie in the year
    10000, the constructor refuses it, and no window comes back. *)
Lemma month_window_last_december :
  (1 <= 12 <= 12)%Z /\ (MINYEAR <= 9999 <= MAXYEAR)%Z
  /\ mk_date 9999 12 1 = Some (Date 9999 12 1)
  /\ month_window 9999 12 = None.
Proof. repeat split; try reflexivity; unfold MINYEAR, MAXYEAR; lia. Qed.

(** ** The serializer *)

Lemma sample_heap_nested : nested 2 sample_heap 0.
Proof. apply nestedb_sound. vm_compute. reflexivity. Qed.



(** [serialize_doc_idempotent] at the sample activity. *)
Lemma serialize_doc_idempotent_witness :
  nested 2 sample_heap 0
  /\ exists h1, serialize_doc sample_repr 2 sample_heap 0 = Some h1
       /\ serialize_doc sample_repr 2 h1 0 = Some h1.
Proof.
  split; [exact sample_heap_nested|].
  apply serialize_doc_idempotent.
  exact sample_heap_nested.
Defined.

(** ** The handlers *)

(** [bad_month_escapes] at month 13. *)
Lemma bad_month_escapes_witness :
  ~ (0 <= 13 <= 12)%Z
  /\ dashboard 0%Z Z.add sample_regex sample_now sample_store (Some 13%Z) (Some 2024%Z)
     = Uncaught ValueError
  /\ monthly_recap 0%Z Z.add sample_repr sample_regex sample_2f sample_now
       sample_store (Some 13%Z) (Some 2024%Z) = Uncaught ValueError
  /\ (forall limit,
        export_pdf 0%Z Z.add sample_repr sample_regex sample_2f limit sample_now
          sample_store (Some 13%Z) (Some 2024%Z) = Uncaught ValueError)
  /\ status_of (dashboard 0%Z Z.add sample_regex sample_now sample_store
                  (Some 13%Z) (Some 2024%Z)) = 500%Z
  /\ (forall limit category search,
        list_activities sample_repr sample_regex limit sample_now sample_store
          (Some 13%Z) (Some 2024%Z) category search
        = list_activities sample_repr sample_regex limit sample_now sample_store
            None None category search).
Proof.
  split; [lia|].
  apply bad_month_escapes.
  lia.
Defined.

(** [search_filter_plain] at the search text "RAP" and the sample activity. *)
Lemma search_filter_plain_witness :
  "RAP" <> EmptyString /\ plain "RAP" = true
  /\ exists b,
       matches sample_regex sample_doc
         (build_query sample_now None None None (Some "RAP")) = Some b
       /\ (b = true <->
           exists k s, k ∈ ["name"; "result"; "notes"]
             /\ sample_doc !! k = Some (VStr s) /\ occurs_ci "RAP" s).
Proof.
  split; [discriminate|]. split; [reflexivity|].
  apply search_filter_plain;
    [discriminate|reflexivity].
Defined.

(** C4 fails for a search text with a character that is special in a
    pattern: "a.c" is found in the name "abc", where it does not occur. *)
Lemma search_pattern_is_not_literal :
  "a.c" <> EmptyString
  /\ matches sample_regex abc_doc
       (build_query sample_now None None None (Some "a.c")) = Some true
  /\ ~ (exists k s, k ∈ ["name"; "result"; "notes"]
          /\ abc_doc !! k = Some (VStr s) /\ occurs_ci "a.c" s).
Proof.
  split; [discriminate|]. split; [vm_compute; reflexivity|].
  intros (k & s & Hk & Hs & Ho).
  apply (search_from_literals "a.c" s) in Ho.
  apply elem_of_cons in Hk as [->|Hk];
    [|apply elem_of_cons in Hk as [->|Hk];
      [|apply elem_of_cons in Hk as [->|Hk]; [|inversion Hk]]];
    vm_compute in Hs; try discriminate Hs.
  injection Hs as <-. vm_compute in Ho. discriminate Ho.
Qed.

(** [dashboard_total_count] at the sample store, March 2024. *)
Lemma dashboard_total_count_witness :
  month_window (resolve_year sample_now (Some 2024%Z))
    (resolve_month sample_now (Some 3%Z))
  = Some (Date 2024 3 1, Date 2024 4 1)
  /\ exists r,
       dashboard 0%Z Z.add sample_regex sample_now sample_store
         (Some 3%Z) (Some 2024%Z) = Return r
       /\ total_activities r
          = length (in_window sample_store (Date 2024 3 1) (Date 2024 4 1))
       /\ total_activities r = sum_values (per_category r).
Proof.
  split; [reflexivity|].
  assert (W : in_window sample_store (Date 2024 3 1) (Date 2024 4 1) = [0%nat])
    by (vm_compute; reflexivity).
  apply dashboard_total_count with (lo := Date 2024 3 1) (hi := Date 2024 4 1).
  - reflexivity.
  - rewrite W. intros l Hl. apply list_elem_of_singleton in Hl as ->.
    exists "administrasi". vm_compute. reflexivity.
  - rewrite W. intros [(l & Hl & Hc) _].
    apply list_elem_of_singleton in Hl as ->. vm_compute in Hc. discriminate Hc.
Defined.

(** C6 fails when the empty category and the category "unknown" meet in a
    window: both records have a category that is not null, the store counts
    two records, and the two groups share the label "unknown", whose count
    is that of the last group. *)
Lemma dashboard_labels_clash :
  in_window clash_store (Date 2024 3 1) (Date 2024 4 1) = [0%nat; 1%nat]
  /\ category_of clash_heap 0 = VStr EmptyString
  /\ category_of clash_heap 1 = VStr "unknown"
  /\ exists r,
       dashboard 0%Z Z.add sample_regex sample_now clash_store None None = Return r
       /\ total_activities r = 2%nat
       /\ per_category r = [(VStr "unknown", 1%nat)]
       /\ sum_values (per_category r) = 1%nat.
Proof.
  split; [vm_compute; reflexivity|]. split; [vm_compute; reflexivity|].
  split; [vm_compute; reflexivity|].
  eexists. split; [vm_compute; reflexivity|]. repeat split.
Qed.

(** [to_object_id_invalid] at an identifier that is no hexadecimal text. *)
Lemma to_object_id_invalid_witness :
  sample_ObjectId "not-an-id" = None
  /\ to_object_id sample_ObjectId "not-an-id" = HTTPException 400 "Invalid ID format"
  /\ is_client_error (status_of (to_object_id sample_ObjectId "not-an-id")) = true
  /\ is_server_error (status_of (to_object_id sample_ObjectId "not-an-id")) = false
  /\ (forall limit (st : store Z),
        get_activity sample_repr sample_regex sample_ObjectId limit st "not-an-id"
        = HTTPException 400 "Invalid ID format")
  /\ (forall st : store Z,
        delete_activity sample_regex sample_ObjectId st "not-an-id"
        = (st, HTTPException 400 "Invalid ID format"))
  /\ (forall now (st : store Z) payload,
        model_dump_exclude_none payload <> [] ->
        update_activity sample_regex sample_ObjectId now st "not-an-id" payload
        = (st, HTTPException 400 "Invalid ID format")).
Proof.
  split; [reflexivity|].
  apply to_object_id_invalid.
  reflexivity.
Defined.

(** [update_activity_no_fields] at the payload without fields, with an
    identifier that is not well formed. *)
Lemma update_activity_no_fields_witness :
  model_dump_exclude_none no_fields = []
  /\ update_activity sample_regex sample_ObjectId sample_now sample_store
       "not-an-id" no_fields = (sample_store, Return false).
Proof.
  split; [reflexivity|].
  apply update_activity_no_fields.
  reflexivity.
Defined.

Lemma sample_store_nested :
  forall l, l ∈ activity sample_store -> nested 2 (objects sample_store) l.
Proof.
  intros l Hl. apply list_elem_of_singleton in Hl as ->. exact sample_heap_nested.
Qed.

(** [export_csv_rows] at the sample store, for March 2024. *)
Lemma export_csv_rows_witness :
  (forall l, l ∈ activity sample_store -> nested 2 (objects sample_store) l)
  /\ exists h activities name,
       list_activities sample_repr sample_regex 2 sample_now sample_store
         (Some 3%Z) (Some 2024%Z) None None = Return (h, activities)
       /\ export_csv sample_repr sample_regex 2 sample_now sample_store
            (Some 3%Z) (Some 2024%Z)
          = Return {| content := to_csv sample_repr h activities; filename := name |}
       /\ to_csv sample_repr h activities
          = ("Tanggal,Nama,Kategori,Durasi,Hasil,Catatan,Pemasukan,Pengeluaran,Kategori Keuangan"
             +:+ CRLF)
            +:+ String.concat EmptyString
                  (map (fun a => csv_line sample_repr h a +:+ CRLF) activities)
       /\ (forall a k, get h a k = None \/ get h a k = Some VNone ->
             csv_text sample_repr h (get h a k) = EmptyString)
       /\ ((forall a k, a ∈ activities -> k ∈ CSV_COLUMNS ->
              mem_char LF (csv_text sample_repr h (get h a k)) = false
              /\ mem_char CR (csv_text sample_repr h (get h a k)) = false) ->
           count_char LF (to_csv sample_repr h activities) = S (length activities)
           /\ count_char CR (to_csv sample_repr h activities) = S (length activities)).
Proof.
  split; [exact sample_store_nested|].
  apply export_csv_rows. exact sample_store_nested.
Defined.

(** C9 fails, read as a count of text lines, for a record with a field of
    two lines: the export of that one record is a text of three lines. *)
Lemma export_csv_line_break :
  exists r,
    export_csv sample_repr sample_regex 2 sample_now notes_store None None = Return r
    /\ length (activity notes_store) = 1%nat
    /\ count_char LF (content r) = 3%nat.
Proof. eexists. split; [vm_compute; reflexivity|]. split; reflexivity. Qed.

(** [export_pdf_default_month] at the sample store, in March 2024. *)
Lemma export_pdf_default_month_witness :
  (forall l, l ∈ activity sample_store -> nested 2 (objects sample_store) l)
  /\ month_window (date_year (dt_date sample_now)) (date_month (dt_date sample_now))
     = Some (Date 2024 3 1, Date 2024 4 1)
  /\ exists recap h name,
       monthly_recap 0%Z Z.add sample_repr sample_regex sample_2f sample_now
         sample_store None None = Return recap
       /\ recap_month recap = 3%Z
       /\ recap_year recap = 2024%Z
       /\ list_activities sample_repr sample_regex 2 sample_now sample_store
            None None None None = Return (h, activity sample_store)
       /\ export_pdf 0%Z Z.add sample_repr sample_regex sample_2f 2 sample_now
            sample_store None None
          = Return {| content := String.concat (String LF EmptyString)
                                   (report_lines sample_repr recap h
                                      (activity sample_store));
                      filename := name |}.
Proof.
  split; [exact sample_store_nested|]. split; [reflexivity|].
  destruct (export_pdf_default_month Z 0%Z Z.add sample_repr sample_regex sample_2f
              2 sample_now sample_store (Date 2024 3 1) (Date 2024 4 1)
              sample_store_nested eq_refl)
    as (recap & h & name & H1 & H2 & H3 & _ & _ & _ & _ & H8 & H9 & _).
  exists recap, h, name. repeat split; assumption.
Defined.


(** * Further properties at the samples *)

Lemma ledger_store_nested :
  forall l, l ∈ activity ledger_store -> nested 2 (objects ledger_store) l.
Proof.
  intros l Hl. apply nestedb_sound.
  apply elem_of_cons in Hl as [->|Hl]; [vm_compute; reflexivity|].
  apply list_elem_of_singleton in Hl as ->. vm_compute. reflexivity.
Qed.

Lemma ledger_first : ledger_heap !! 0%nat = Some sample_doc.
Proof.
  unfold ledger_heap, sample_heap.
  rewrite lookup_insert_ne by discriminate. apply lookup_insert_eq.
Qed.

Lemma ledger_first_nested : nested 2 ledger_heap 0.
Proof. apply nestedb_sound. vm_compute. reflexivity. Qed.

(** [month_window_holds_the_month] at February 2024 and its last day. *)
Lemma month_window_holds_the_month_witness :
  month_window 2024 2 = Some (Date 2024 2 1, Date 2024 3 1)
  /\ (1 <= date_month (Date 2024 2 29) <= 12)%Z
  /\ (1 <= date_day (Date 2024 2 29))%Z
  /\ (date_leb (Date 2024 2 1) (Date 2024 2 29)
      && date_ltb (Date 2024 2 29) (Date 2024 3 1) = true
      <-> date_year (Date 2024 2 29) = 2024%Z
          /\ date_month (Date 2024 2 29) = 2%Z).
Proof.
  split; [reflexivity|]. split; [simpl; lia|]. split; [simpl; lia|].
  apply (month_window_holds_the_month 2024 2 (Date 2024 2 1) (Date 2024 3 1)
           (Date 2024 2 29)); [reflexivity|simpl; lia|simpl; lia].
Defined.

(** [list_activities_selects] at the two activities, for March 2024. *)
Lemma list_activities_selects_witness :
  (forall l, l ∈ activity ledger_store -> nested 2 (objects ledger_store) l)
  /\ exists h,
       list_activities sample_repr sample_regex 2 sample_now ledger_store
         (Some 3%Z) (Some 2024%Z) (Some "administrasi") None
       = Return (h, listed ledger_store sample_now (Some 3%Z) (Some 2024%Z)
                      (Some "administrasi"))
       /\ forall l, l ∈ listed ledger_store sample_now (Some 3%Z) (Some 2024%Z)
                          (Some "administrasi") -> done 2 h l.
Proof.
  split; [exact ledger_store_nested|].
  apply list_activities_selects. exact ledger_store_nested.
Defined.

(** [get_activity_found] at the identifier of the first activity. *)
Lemma get_activity_found_witness :
  sample_ObjectId "65e6f0a1b2c3d4e5f6a7b8c9" = Some "65e6f0a1b2c3d4e5f6a7b8c9"
  /\ with_oid ledger_store "65e6f0a1b2c3d4e5f6a7b8c9" = [0%nat]
  /\ nested 2 (objects ledger_store) 0
  /\ exists h,
       get_activity sample_repr sample_regex sample_ObjectId 2 ledger_store
         "65e6f0a1b2c3d4e5f6a7b8c9" = Return (h, 0%nat)
       /\ get h 0 "id" = Some (VStr "65e6f0a1b2c3d4e5f6a7b8c9")
       /\ get h 0 "_id" = None
       /\ done 2 h 0.
Proof.
  split; [vm_compute; reflexivity|]. split; [vm_compute; reflexivity|].
  split; [exact ledger_first_nested|].
  apply (get_activity_found Z sample_repr sample_regex sample_ObjectId 2
           ledger_store "65e6f0a1b2c3d4e5f6a7b8c9" "65e6f0a1b2c3d4e5f6a7b8c9"
           0%nat []).
  - vm_compute. reflexivity.
  - vm_compute. reflexivity.
  - exact ledger_first_nested.
Defined.

(** [unknown_identifier] at an identifier of zeros. *)
Lemma unknown_identifier_witness :
  sample_ObjectId "000000000000000000000000" = Some "000000000000000000000000"
  /\ with_oid ledger_store "000000000000000000000000" = []
  /\ model_dump_exclude_none rename_payload <> []
  /\ get_activity sample_repr sample_regex sample_ObjectId 2 ledger_store
       "000000000000000000000000" = HTTPException 404 "Not found"
  /\ update_activity sample_regex sample_ObjectId sample_now ledger_store
       "000000000000000000000000" rename_payload = (ledger_store, Return false)
  /\ delete_activity sample_regex sample_ObjectId ledger_store
       "000000000000000000000000" = (ledger_store, Return false).
Proof.
  split; [vm_compute; reflexivity|]. split; [vm_compute; reflexivity|].
  split; [discriminate|].
  apply (unknown_identifier Z sample_repr sample_regex sample_ObjectId 2
           sample_now ledger_store "000000000000000000000000"
           "000000000000000000000000" rename_payload).
  - vm_compute. reflexivity.
  - vm_compute. reflexivity.
  - discriminate.
Defined.

(** [update_activity_sets_fields] at the first activity, renamed. *)
Lemma update_activity_sets_fields_witness :
  sample_ObjectId "65e6f0a1b2c3d4e5f6a7b8c9" = Some "65e6f0a1b2c3d4e5f6a7b8c9"
  /\ model_dump_exclude_none rename_payload <> []
  /\ with_oid ledger_store "65e6f0a1b2c3d4e5f6a7b8c9" = [0%nat]
  /\ objects ledger_store !! 0%nat = Some sample_doc
  /\ exists st' d' updated,
       update_activity sample_regex sample_ObjectId sample_now ledger_store
         "65e6f0a1b2c3d4e5f6a7b8c9" rename_payload = (st', Return updated)
       /\ activity st' = activity ledger_store
       /\ objects st' !! 0%nat = Some d'
       /\ (forall x, x <> 0%nat -> objects st' !! x = objects ledger_store !! x)
       /\ d' !! "updated_at" = Some (VDateTime sample_now)
       /\ (forall k v, (k, v) ∈ model_dump_exclude_none rename_payload ->
             d' !! k = Some v)
       /\ (forall k, k <> "updated_at" ->
             k ∉ (model_dump_exclude_none rename_payload).*1 ->
             d' !! k = sample_doc !! k)
       /\ (updated = true <-> d' <> sample_doc).
Proof.
  split; [vm_compute; reflexivity|]. split; [discriminate|].
  split; [vm_compute; reflexivity|]. split; [exact ledger_first|].
  apply (update_activity_sets_fields Z sample_regex sample_ObjectId sample_now
           ledger_store "65e6f0a1b2c3d4e5f6a7b8c9" rename_payload
           "65e6f0a1b2c3d4e5f6a7b8c9" 0%nat [] sample_doc).
  - vm_compute. reflexivity.
  - discriminate.
  - vm_compute. reflexivity.
  - exact ledger_first.
Defined.

(** [delete_activity_removes] at the first activity. *)
Lemma delete_activity_removes_witness :
  sample_ObjectId "65e6f0a1b2c3d4e5f6a7b8c9" = Some "65e6f0a1b2c3d4e5f6a7b8c9"
  /\ with_oid ledger_store "65e6f0a1b2c3d4e5f6a7b8c9" = [0%nat]
  /\ exists st',
       delete_activity sample_regex sample_ObjectId ledger_store
         "65e6f0a1b2c3d4e5f6a7b8c9" = (st', Return true)
       /\ objects st' = objects ledger_store
       /\ activity st' = remove_first 0%nat (activity ledger_store)
       /\ S (length (activity st')) = length (activity ledger_store)
       /\ with_oid st' "65e6f0a1b2c3d4e5f6a7b8c9" = [].
Proof.
  split; [vm_compute; reflexivity|]. split; [vm_compute; reflexivity|].
  apply (delete_activity_removes Z sample_regex sample_ObjectId ledger_store
           "65e6f0a1b2c3d4e5f6a7b8c9" "65e6f0a1b2c3d4e5f6a7b8c9" 0%nat []).
  - vm_compute. reflexivity.
  - vm_compute. reflexivity.
Defined.

(** [get_after_delete] at the first activity. *)
Lemma get_after_delete_witness :
  sample_ObjectId "65e6f0a1b2c3d4e5f6a7b8c9" = Some "65e6f0a1b2c3d4e5f6a7b8c9"
  /\ with_oid ledger_store "65e6f0a1b2c3d4e5f6a7b8c9" = [0%nat]
  /\ get_activity sample_repr sample_regex sample_ObjectId 2
       (delete_activity sample_regex sample_ObjectId ledger_store
          "65e6f0a1b2c3d4e5f6a7b8c9").1
       "65e6f0a1b2c3d4e5f6a7b8c9"
     = HTTPException 404 "Not found".
Proof.
  split; [vm_compute; reflexivity|]. split; [vm_compute; reflexivity|].
  apply (get_after_delete Z sample_repr sample_regex sample_ObjectId 2
           ledger_store "65e6f0a1b2c3d4e5f6a7b8c9" "65e6f0a1b2c3d4e5f6a7b8c9"
           0%nat).
  - vm_compute. reflexivity.
  - vm_compute. reflexivity.
Defined.

(** [dashboard_skips_missing] at the two activities, for April 2024: the
    April activity has no income and a null expense. *)
Lemma dashboard_skips_missing_witness :
  (forall x : Z, (x + 0)%Z = x)
  /\ month_window (resolve_year sample_now (Some 2024%Z))
       (resolve_month sample_now (Some 4%Z))
     = Some (Date 2024 4 1, Date 2024 5 1)
  /\ exists r,
       dashboard 0%Z Z.add sample_regex sample_now ledger_store
         (Some 4%Z) (Some 2024%Z) = Return r
       /\ total_income r
          = group_sum 0%Z Z.add (objects ledger_store)
              (filter (fun l => has_number (objects ledger_store) "income" l = true)
                      (in_window ledger_store (Date 2024 4 1) (Date 2024 5 1)))
              "income"
       /\ total_expense r
          = group_sum 0%Z Z.add (objects ledger_store)
              (filter (fun l => has_number (objects ledger_store) "expense" l = true)
                      (in_window ledger_store (Date 2024 4 1) (Date 2024 5 1)))
              "expense".
Proof.
  split; [exact Z.add_0_r|]. split; [reflexivity|].
  apply (dashboard_skips_missing Z 0%Z Z.add sample_regex sample_now
           ledger_store (Some 4%Z) (Some 2024%Z) (Date 2024 4 1) (Date 2024 5 1)).
  - exact Z.add_0_r.
  - reflexivity.
Defined.

(** [top_category_is_first_maximum] at counts with a tie for the first
    place. *)
Lemma top_category_is_first_maximum_witness :
  tied_counts <> []
  /\ exists i k c,
       tied_counts !! i = Some (k, c)
       /\ top_category sample_repr sample_heap tied_counts
          = py_str sample_repr sample_heap k
       /\ (forall j kv, tied_counts !! j = Some kv -> kv.2 <= c)
       /\ (forall j kv, j < i -> tied_counts !! j = Some kv -> kv.2 < c).
Proof.
  split; [discriminate|].
  apply (top_category_is_first_maximum Z sample_repr sample_heap tied_counts).
  discriminate.
Defined.

(** [serialize_doc_fields] at the first activity. *)
Lemma serialize_doc_fields_witness :
  ledger_heap !! 0%nat = Some sample_doc
  /\ exists h',
       serialize_doc sample_repr 2 ledger_heap 0 = Some h'
       /\ exists d', h' !! 0%nat = Some d'
            /\ (forall k, k <> "_id" -> k <> "id" ->
                  d' !! k = conv <$> sample_doc !! k)
            /\ (forall v, sample_doc !! "_id" = Some v -> is_None v = false ->
                  d' !! "_id" = None
                  /\ d' !! "id" = Some (VStr (py_str sample_repr ledger_heap v)))
            /\ (~ has_id sample_doc ->
                  forall k, d' !! k = conv <$> sample_doc !! k).
Proof.
  pose proof ledger_first as Hd.
  split; [exact Hd|].
  destruct (serialize_doc_total Z sample_repr 2 ledger_heap 0 ledger_first_nested)
    as [h' E].
  exists h'. split; [exact E|].
  apply (serialize_doc_fields Z sample_repr 2 ledger_heap 0 sample_doc h' Hd E).
Defined.

(** [serialize_doc_frame] at the first activity: the April activity is not
    nested in it and stays as it was. *)
Lemma serialize_doc_frame_witness :
  ~ within 2 ledger_heap 0 2
  /\ exists h',
       serialize_doc sample_repr 2 ledger_heap 0 = Some h'
       /\ h' !! 2%nat = ledger_heap !! 2%nat.
Proof.
  assert (Hout : ~ within 2 ledger_heap 0 2).
  { intros H. apply withinb_complete in H. vm_compute in H. discriminate H. }
  split; [exact Hout|].
  destruct (serialize_doc_total Z sample_repr 2 ledger_heap 0 ledger_first_nested)
    as [h' E].
  exists h'. split; [exact E|].
  apply (serialize_doc_frame Z sample_repr 2 ledger_heap 0 h' 2%nat E Hout).
Defined.

(** [exports_follow_the_window] at the two activities, for March 2024. *)
Lemma exports_follow_the_window_witness :
  truthy_int (Some 3%Z) || truthy_int (Some 2024%Z) = true
  /\ month_window (resolve_year sample_now (Some 2024%Z))
       (resolve_month sample_now (Some 3%Z))
     = Some (Date 2024 3 1, Date 2024 4 1)
  /\ (forall l, l ∈ activity ledger_store -> nested 2 (objects ledger_store) l)
  /\ exists h recap,
       monthly_recap 0%Z Z.add sample_repr sample_regex sample_2f sample_now
         ledger_store (Some 3%Z) (Some 2024%Z) = Return recap
       /\ recap_categories recap
          = by_label 0%Z (objects ledger_store)
              (group_count (objects ledger_store)
                 (in_window ledger_store (Date 2024 3 1) (Date 2024 4 1))
                 "category")
       /\ (exists d,
             export_csv sample_repr sample_regex 2 sample_now ledger_store
               (Some 3%Z) (Some 2024%Z) = Return d
             /\ content d
                = to_csv sample_repr h
                    (in_window ledger_store (Date 2024 3 1) (Date 2024 4 1)))
       /\ (exists d,
             export_pdf 0%Z Z.add sample_repr sample_regex sample_2f 2 sample_now
               ledger_store (Some 3%Z) (Some 2024%Z) = Return d
             /\ content d
                = String.concat (String LF EmptyString)
                    (report_lines sample_repr recap h
                       (in_window ledger_store (Date 2024 3 1) (Date 2024 4 1))))
       /\ forall l, l ∈ in_window ledger_store (Date 2024 3 1) (Date 2024 4 1) ->
                    done 2 h l.
Proof.
  split; [reflexivity|]. split; [reflexivity|].
  split; [exact ledger_store_nested|].
  apply (exports_follow_the_window Z 0%Z Z.add sample_repr sample_regex
           sample_2f 2 sample_now ledger_store (Some 3%Z) (Some 2024%Z)
           (Date 2024 3 1) (Date 2024 4 1));
    [reflexivity|reflexivity|exact ledger_store_nested].
Defined.

(** [get_after_update] at the first activity, renamed and read again. *)
Lemma get_after_update_witness :
  sample_ObjectId "65e6f0a1b2c3d4e5f6a7b8c9" = Some "65e6f0a1b2c3d4e5f6a7b8c9"
  /\ model_dump_exclude_none rename_payload <> []
  /\ with_oid ledger_store "65e6f0a1b2c3d4e5f6a7b8c9" = [0%nat]
  /\ nested 2 (objects ledger_store) 0
  /\ exists h,
       get_activity sample_repr sample_regex sample_ObjectId 2
         (update_activity sample_regex sample_ObjectId sample_now ledger_store
            "65e6f0a1b2c3d4e5f6a7b8c9" rename_payload).1
         "65e6f0a1b2c3d4e5f6a7b8c9" = Return (h, 0%nat)
       /\ (forall k v, (k, v) ∈ model_dump_exclude_none rename_payload ->
             get h 0 k = Some (conv v))
       /\ get h 0 "updated_at" = Some (VStr (datetime_isoformat "T" sample_now))
       /\ get h 0 "id" = Some (VStr "65e6f0a1b2c3d4e5f6a7b8c9").
Proof.
  split; [vm_compute; reflexivity|]. split; [discriminate|].
  split; [vm_compute; reflexivity|]. split; [exact ledger_first_nested|].
  apply (get_after_update Z sample_repr sample_regex sample_ObjectId 2
           sample_now ledger_store "65e6f0a1b2c3d4e5f6a7b8c9" rename_payload
           "65e6f0a1b2c3d4e5f6a7b8c9" 0%nat []).
  - vm_compute. reflexivity.
  - discriminate.
  - vm_compute. reflexivity.
  - exact ledger_first_nested.
Defined.

Lemma ledger_store_NoDup : NoDup (activity ledger_store).
Proof.
  apply (bool_decide_unpack (NoDup (activity ledger_store))).
  vm_compute. exact I.
Qed.

(** A listing of the two activities by the search text "a" returns both:
    each name holds it. *)
Lemma ledger_search_returns :
  exists h0,
    list_activities sample_repr sample_regex 2 sample_now ledger_store
      None None None (Some "a") = Return (h0, [0%nat; 2%nat]).
Proof.
  assert (F : find Z sample_regex ledger_store
                (build_query sample_now None None None (Some "a"))
              = Some [0%nat; 2%nat]) by (vm_compute; reflexivity).
  destruct (serialize_all_total Z sample_repr 2 [0%nat; 2%nat]
              (objects ledger_store) ledger_store_nested) as (h0 & E & _).
  exists h0. unfold list_activities, get_documents. rewrite F.
  cbv beta iota delta [mbind outcome_bind store_call]. rewrite E. reflexivity.
Qed.

(** [list_after_delete] at the first activity, deleted, and the listing by
    the search text "a". *)
Lemma list_after_delete_witness :
  sample_ObjectId "65e6f0a1b2c3d4e5f6a7b8c9" = Some "65e6f0a1b2c3d4e5f6a7b8c9"
  /\ with_oid ledger_store "65e6f0a1b2c3d4e5f6a7b8c9" = [0%nat]
  /\ NoDup (activity ledger_store)
  /\ (forall x, x ∈ activity ledger_store -> nested 2 (objects ledger_store) x)
  /\ exists h0,
       list_activities sample_repr sample_regex 2 sample_now ledger_store
         None None None (Some "a") = Return (h0, [0%nat; 2%nat])
       /\ exists h docs,
            list_activities sample_repr sample_regex 2 sample_now
              (delete_activity sample_regex sample_ObjectId ledger_store
                 "65e6f0a1b2c3d4e5f6a7b8c9").1
              None None None (Some "a") = Return (h, docs)
            /\ (0%nat ∉ docs)
            /\ forall x, x <> 0%nat -> (x ∈ docs <-> x ∈ [0%nat; 2%nat]).
Proof.
  split; [vm_compute; reflexivity|]. split; [vm_compute; reflexivity|].
  split; [exact ledger_store_NoDup|]. split; [exact ledger_store_nested|].
  destruct ledger_search_returns as [h0 E]. exists h0. split; [exact E|].
  apply (list_after_delete Z sample_repr sample_regex sample_ObjectId 2
           sample_now ledger_store "65e6f0a1b2c3d4e5f6a7b8c9"
           "65e6f0a1b2c3d4e5f6a7b8c9" 0%nat [] None None None (Some "a")
           h0 [0%nat; 2%nat]).
  - vm_compute. reflexivity.
  - vm_compute. reflexivity.
  - exact ledger_store_NoDup.
  - exact ledger_store_nested.
  - exact E.
Defined.

(** [dashboard_counts_the_listing] at the two activities, for March 2024. *)
Lemma dashboard_counts_the_listing_witness :
  truthy_int (Some 3%Z) || truthy_int (Some 2024%Z) = true
  /\ month_window (resolve_year sample_now (Some 2024%Z))
       (resolve_month sample_now (Some 3%Z))
     = Some (Date 2024 3 1, Date 2024 4 1)
  /\ (forall l, l ∈ activity ledger_store -> nested 2 (objects ledger_store) l)
  /\ exists r h docs,
       dashboard 0%Z Z.add sample_regex sample_now ledger_store
         (Some 3%Z) (Some 2024%Z) = Return r
       /\ list_activities sample_repr sample_regex 2 sample_now ledger_store
            (Some 3%Z) (Some 2024%Z) None None = Return (h, docs)
       /\ total_activities r = length docs.
Proof.
  split; [reflexivity|]. split; [reflexivity|].
  split; [exact ledger_store_nested|].
  apply (dashboard_counts_the_listing Z 0%Z Z.add sample_repr sample_regex 2
           sample_now ledger_store (Some 3%Z) (Some 2024%Z)
           (Date 2024 3 1) (Date 2024 4 1));
    [reflexivity|reflexivity|exact ledger_store_nested].
Defined.
